(** * m2uHelper: identity reconciliation and transform-text decoding

    A shallow embedding of [Source/m2uPlugin/Private/m2uHelper.h] and the
    properties of its helper functions: [ParseList], [RenameActor],
    [GetFreeName], [SetActorTransformRelativeFromText] and
    [AddNewActorFromAsset].

    The helper functions are written against the editor's engine API.  The
    deterministic library calls they make on strings and names are modelled
    by executable definitions ([Module FStr], [Module Names]); whatever the
    editor decides at run time (whether a rename is feasible, which objects
    live in the level, how a numeric payload is scanned, which asset a path
    resolves to) is a field of a host record or a section variable, so that
    the theorems hold for every editor behaviour. *)

From Stdlib Require Import ZArith List Bool Ascii String Lia Arith.
From Stdlib Require Import DecimalString.
Import ListNotations.

Local Open Scope string_scope.
Local Open Scope Z_scope.

(* ================================================================== *)
(** ** Engine strings ([FString], [FCString]) *)
(* ================================================================== *)

Module FStr.

(** [uint32] and [int32] wrap-around. *)
Definition wrap_u32 (x : Z) : Z := x mod 2 ^ 32.
Definition wrap_i32 (x : Z) : Z := (x + 2 ^ 31) mod 2 ^ 32 - 2 ^ 31.

(** [FMath::Clamp(X, Min, Max)]: [X < Min ? Min : X < Max ? X : Max]. *)
Definition Clamp (X Min Max : Z) : Z :=
  if X <? Min then Min else if X <? Max then X else Max.

(** [FString::Len]. *)
Definition Len (s : string) : Z := Z.of_nat (String.length s).

(** [FString::IsEmpty]. *)
Definition IsEmpty (s : string) : bool :=
  match s with EmptyString => true | String _ _ => false end.

(** Pointer advance inside a buffer: the text from offset [n] on, clamped
    at the terminator. *)
Fixpoint skip (n : nat) (s : string) : string :=
  match n, s with
  | O, _ => s
  | S _, EmptyString => EmptyString
  | S n', String _ s' => skip n' s'
  end.

(** The first [n] characters. *)
Fixpoint take (n : nat) (s : string) : string :=
  match n, s with
  | O, _ => EmptyString
  | S _, EmptyString => EmptyString
  | S n', String c s' => String c (take n' s')
  end.

(** [FString::Mid(Start, Count)].  The engine computes in [uint32]:
    [End = Start + Count], then [Start] is clamped to [0 .. Len] and [End]
    to [Start .. Len], and [End - Start] characters are copied. *)
Definition Mid (s : string) (Start Count : Z) : string :=
  let End := wrap_u32 (Start + Count) in
  let Start' := Clamp (wrap_u32 Start) 0 (Len s) in
  let End' := Clamp End Start' (Len s) in
  take (Z.to_nat (End' - Start')) (skip (Z.to_nat Start') s).

(** [Strncmp(Str, Find, Len(Find)) == 0]: [Find] is a prefix of [Str]. *)
Fixpoint starts_with (Find Str : string) : bool :=
  match Find, Str with
  | EmptyString, _ => true
  | String _ _, EmptyString => false
  | String f Find', String c Str' => Ascii.eqb f c && starts_with Find' Str'
  end.

(** [FCString::Strstr]: offset of the first occurrence of [Find]. *)
Fixpoint Strstr (Str Find : string) : option nat :=
  if starts_with Find Str then Some O
  else match Str with
       | EmptyString => None
       | String _ Str' => option_map S (Strstr Str' Find)
       end.

Definition is_alnum (c : ascii) : bool :=
  let n := nat_of_ascii c in
  ((65 <=? n) && (n <=? 90) || (97 <=? n) && (n <=? 122)
   || (48 <=? n) && (n <=? 57))%nat.

(** [FCString::Strfind]: case-sensitive search for [Find] that accepts an
    occurrence only when the character before it is not alphanumeric.
    The engine walks the text remembering whether the previous character
    was alphanumeric ([Alnum]); an empty text is never entered. *)
Fixpoint Strfind_from (Alnum : bool) (Str Find : string) : option nat :=
  match Str with
  | EmptyString => None
  | String c Str' =>
      if negb Alnum && starts_with Find Str then Some O
      else option_map S (Strfind_from (is_alnum c) Str' Find)
  end.

Definition Strfind (Str Find : string) : option nat :=
  match Find with
  | EmptyString => None
  | String _ _ => Strfind_from false Str Find
  end.

Definition to_upper (c : ascii) : ascii :=
  let n := nat_of_ascii c in
  if ((97 <=? n) && (n <=? 122))%nat then ascii_of_nat (n - 32) else c.

(** [FString::ReplaceInline(TestChar, TEXT(""))] for a one-character
    search text: every occurrence is removed.  The engine's default
    search mode is [ESearchCase::IgnoreCase]. *)
Fixpoint RemoveChar (TestChar : ascii) (s : string) : string :=
  match s with
  | EmptyString => EmptyString
  | String c s' =>
      if Ascii.eqb (to_upper c) (to_upper TestChar) then RemoveChar TestChar s'
      else String c (RemoveChar TestChar s')
  end.

(** [FString::ParseIntoArray(&Result, Delim, CullEmpty)].  The engine
    loops [while (At = Strstr(Start, Delim))], appending the text before
    [At] (unless it is empty and [CullEmpty]) and moving [Start] behind the
    delimiter, then appends the rest.  Every turn consumes at least one
    character, so [fuel] = length + 1 turns are enough. *)
Fixpoint ParseIntoArray_loop (fuel : nat) (Start Delim : string)
         (CullEmpty : bool) : list string :=
  match fuel with
  | O => []
  | S fuel' =>
      match Strstr Start Delim with
      | Some At =>
          (if negb CullEmpty || negb (Nat.eqb At 0)
           then [take At Start] else [])
            ++ ParseIntoArray_loop fuel'
                 (skip (At + String.length Delim) Start) Delim CullEmpty
      | None =>
          if negb CullEmpty || negb (IsEmpty Start) then [Start] else []
      end
  end.

(** An empty [FString] owns no buffer ([Start == NULL]) and an empty
    delimiter is refused: both give the empty array. *)
Definition ParseIntoArray (s Delim : string) (CullEmpty : bool)
  : list string :=
  if IsEmpty s || IsEmpty Delim then []
  else ParseIntoArray_loop (S (String.length s)) s Delim CullEmpty.

End FStr.

(* ================================================================== *)
(** ** [ParseList] *)
(* ================================================================== *)

(** [ParseList(Str)]: chop the brackets, split at commas, keep empty
    items. *)
Definition ParseList (Str : string) : list string :=
  let Chopped := FStr.Mid Str 1 (FStr.wrap_i32 (FStr.Len Str - 2)) in
  FStr.ParseIntoArray Chopped "," false.


(* ================================================================== *)
(** ** Engine names ([FName]) *)
(* ================================================================== *)

Module Names.

(** An [FName] is an entry of the global name table ([ComparisonIndex],
    written here as the entry's text) and an instance [Number].  The
    number is stored internally: 0 ([NAME_NO_NUMBER_INTERNAL]) is "no
    suffix", [n + 1] is the suffix [_n]. *)
Record FName : Type := MkFName { ComparisonIndex : string; Number : Z }.

Definition NAME_NO_NUMBER_INTERNAL : Z := 0.

(** [NAME_None], the engine's "no name". *)
Definition NAME_None : FName := MkFName "None" NAME_NO_NUMBER_INTERNAL.

(** [operator==]: same table entry and same number. *)
Definition FName_eqb (a b : FName) : bool :=
  String.eqb (ComparisonIndex a) (ComparisonIndex b)
  && (Number a =? Number b).

Definition GetNumber (n : FName) : Z := Number n.

Definition SetNumber (n : FName) (NewNumber : Z) : FName :=
  MkFName (ComparisonIndex n) NewNumber.

End Names.
Export Names.

(* ================================================================== *)
(** ** Actors *)
(* ================================================================== *)

Section ActorModel.

Variable float : Type.

Record FVector : Type := MkFVector { vX : float; vY : float; vZ : float }.

Record FRotator : Type :=
  MkFRotator { Pitch : float; Yaw : float; Roll : float }.

(** The notifications an actor receives from the decoder, in call
    order. *)
Inductive ActorEvent : Type :=
| InvalidateLightingCache
| PostEditMove (bFinished : bool)
| CheckDefaultSubobjects
| MarkPackageDirty.

(** The part of an [AActor] the helpers read and write: its object name
    (the ID), its label, its relative transform and the notifications it
    has received so far. *)
Record AActor : Type := MkAActor {
  Name : FName;
  ActorLabel : string;
  RelativeLocation : FVector;
  RelativeRotation : FRotator;
  RelativeScale3D : FVector;
  Received : list ActorEvent
}.

Definition GetFName (a : AActor) : FName := Name a.

(** [SetActorLabel]: stores the label; "this won't change the ID". *)
Definition SetActorLabel (a : AActor) (NewLabel : string) : AActor :=
  MkAActor (Name a) NewLabel (RelativeLocation a) (RelativeRotation a)
           (RelativeScale3D a) (Received a).

Definition SetActorRelativeLocation (a : AActor) (Loc : FVector) : AActor :=
  MkAActor (Name a) (ActorLabel a) Loc (RelativeRotation a)
           (RelativeScale3D a) (Received a).

Definition SetActorRelativeRotation (a : AActor) (Rot : FRotator) : AActor :=
  MkAActor (Name a) (ActorLabel a) (RelativeLocation a) Rot
           (RelativeScale3D a) (Received a).

Definition SetActorRelativeScale3D (a : AActor) (Scale : FVector) : AActor :=
  MkAActor (Name a) (ActorLabel a) (RelativeLocation a) (RelativeRotation a)
           Scale (Received a).

(** A notification call: recorded behind the earlier ones. *)
Definition Notify (a : AActor) (e : ActorEvent) : AActor :=
  MkAActor (Name a) (ActorLabel a) (RelativeLocation a) (RelativeRotation a)
           (RelativeScale3D a) (Received a ++ [e]).

End ActorModel.

Arguments MkFVector {float}.
Arguments vX {float}.
Arguments vY {float}.
Arguments vZ {float}.
Arguments MkFRotator {float}.
Arguments Pitch {float}.
Arguments Yaw {float}.
Arguments Roll {float}.
Arguments MkAActor {float}.
Arguments Name {float}.
Arguments ActorLabel {float}.
Arguments RelativeLocation {float}.
Arguments RelativeRotation {float}.
Arguments RelativeScale3D {float}.
Arguments Received {float}.
Arguments GetFName {float}.
Arguments SetActorLabel {float}.
Arguments SetActorRelativeLocation {float}.
Arguments SetActorRelativeRotation {float}.
Arguments SetActorRelativeScale3D {float}.
Arguments Notify {float}.

(** [ERenameFlags] used by the helpers; a flag word is the list of its
    bits. *)
Inductive ERenameFlags : Type :=
| REN_Test
| REN_DoNotDirty
| REN_NonTransactional
| REN_DontCreateRedirectors.

Definition is_REN_Test (f : ERenameFlags) : bool :=
  match f with REN_Test => true | _ => false end.

(** The level of the editor world: the names of the objects it owns. *)
Definition ULevel : Type := list FName.

(** What [UObject* Outer] can point to in [GetFreeName]. *)
Inductive OuterRef : Type :=
| ANY_PACKAGE
| InLevel (Level : ULevel).

(** The outcome of a helper that dereferences what the editor hands back. *)
Inductive Outcome (A : Type) : Type :=
| Returned (r : A)
| NullDereference.
Arguments Returned {A}.
Arguments NullDereference {A}.

(* ================================================================== *)
(** ** The editor the helpers run in *)
(* ================================================================== *)

(** Everything the helpers ask of the engine and of the rest of the plugin.
    - [INVALID_OBJECTNAME_CHARACTERS]: the engine macro, a string literal;
    - [FName_of]: the constructor of an [FName] from a character string;
    - [ToString]: [FName::ToString];
    - [Rename]: [UObject::Rename(NewName, NULL, Flags)], giving the success
      flag and the actor afterwards;
    - [StaticFindObject_AnyPackage]: [StaticFindObject(NULL, ANY_PACKAGE, _)];
    - [GetFVECTORSpaceDelimited], [GetFROTATORSpaceDelimited]: the editor's
      payload scanners, giving the value they store;
    - [float_1_0]: the literal [1.0f];
    - [GetAssetFromPath]: the plugin's asset lookup ([m2uAssetHelper.h]);
    - [AddActorForAsset]: [FActorFactoryAssetProxy::AddActorForAsset]. *)
Class Editor : Type := {
  float : Type;
  UObject : Type;
  EObjectFlags : Type;
  INVALID_OBJECTNAME_CHARACTERS : string;
  FName_of : string -> FName;
  ToString : FName -> string;
  Rename : AActor float -> string -> list ERenameFlags -> bool * AActor float;
  StaticFindObject_AnyPackage : string -> bool;
  GetFVECTORSpaceDelimited : string -> FVector float;
  GetFROTATORSpaceDelimited : string -> float -> FRotator float;
  float_1_0 : float;
  GetAssetFromPath : string -> option UObject;
  AddActorForAsset :
    UObject -> FVector float -> bool -> bool -> EObjectFlags -> FName ->
    option (AActor float)
}.

(** The editor's global state read by [GetFreeName]:
    [GEditor->GetEditorWorldContext().World()->GetCurrentLevel()]. *)
Record UEditorEngine : Type := MkGEditor { GetCurrentLevel : ULevel }.

(* ================================================================== *)
(** ** The helpers of [m2uHelper.h] *)
(* ================================================================== *)

Definition M2U_GENERATED_NAME : string := "m2uGeneratedName".

Section Helpers.

Context {E : Editor}.

Local Abbreviation Actor := (AActor float).

(** The loop over [INVALID_OBJECTNAME_CHARACTERS] shared by [RenameActor]
    and [GetFreeName]: one [ReplaceInline] per table entry, in table
    order. *)
Fixpoint StripInvalid (Bad GeneratedName : string) : string :=
  match Bad with
  | EmptyString => GeneratedName
  | String TestChar Bad' =>
      StripInvalid Bad' (FStr.RemoveChar TestChar GeneratedName)
  end.

Definition GenerateName (Name : string) : string :=
  StripInvalid INVALID_OBJECTNAME_CHARACTERS Name.

(** *** [RenameActor] *)

(** Step 1, "Generate a valid FName from the String".  [None] is the
    early return taken when the name was stripped completely. *)
Definition RenameActor_NewFName (Name : string) : option FName :=
  let GeneratedName := GenerateName Name in
  if FStr.IsEmpty GeneratedName then None
  else
    let NewFName := FName_of GeneratedName in
    if FName_eqb NewFName NAME_None
    then Some (FName_of M2U_GENERATED_NAME)
    else Some NewFName.

(** Steps 2 to 4: rename the object, get the resulting name, set the
    label. *)
Definition RenameActor_Rename (a : Actor) (NewFName : FName)
  : FName * Actor :=
  if FName_eqb (GetFName a) NewFName then (GetFName a, a)
  else
    let RenFlags := [REN_DontCreateRedirectors] in
    let '(bCanRename, a1) :=
      Rename a (ToString NewFName)
             ([REN_Test; REN_DoNotDirty; REN_NonTransactional] ++ RenFlags) in
    if bCanRename then
      let a2 := snd (Rename a1 (ToString NewFName) RenFlags) in
      let ResultFName := GetFName a2 in
      let a3 := SetActorLabel a2 (ToString ResultFName) in
      (ResultFName, a3)
    else (GetFName a1, a1).

Definition RenameActor (a : Actor) (Name : string) : FName * Actor :=
  match RenameActor_NewFName Name with
  | None => (GetFName a, a)
  | Some NewFName => RenameActor_Rename a NewFName
  end.

(** *** [GetFreeName] *)

(** "Generate a valid FName from the String": no emptiness test here. *)
Definition GetFreeName_TestName (Name : string) : FName :=
  let TestName := FName_of (GenerateName Name) in
  if FName_eqb TestName NAME_None then FName_of M2U_GENERATED_NAME
  else TestName.

(** [StaticFindObjectFastInternal(NULL, Outer, TestName)]: is there an
    object of that name in the level. *)
Definition StaticFindObjectFastInternal (Level : ULevel) (n : FName)
  : bool :=
  existsb (FName_eqb n) Level.

Definition ExistingObject (Outer : OuterRef) (TestName : FName) : bool :=
  match Outer with
  | ANY_PACKAGE => StaticFindObject_AnyPackage (ToString TestName)
  | InLevel Level => StaticFindObjectFastInternal Level TestName
  end.

(** The [for(;;)] loop, one turn per unit of [fuel]; [None] when the fuel
    runs out before a free name is found.  [GetNumber() + 1] is a sum of
    [int32]. *)
Fixpoint GetFreeName_loop (fuel : nat) (Outer : OuterRef)
         (TestName : FName) : option FName :=
  match fuel with
  | O => None
  | S fuel' =>
      if ExistingObject Outer TestName
      then GetFreeName_loop fuel' Outer
             (SetNumber TestName (FStr.wrap_i32 (GetNumber TestName + 1)))
      else Some TestName
  end.

Definition GetFreeName (fuel : nat) (GEditor : UEditorEngine)
           (Name : string) : option FName :=
  let Outer := InLevel (GetCurrentLevel GEditor) in
  GetFreeName_loop fuel Outer (GetFreeName_TestName Name).

(** *** [SetActorTransformRelativeFromText] *)

(** [Stream = Strfind(Str, Marker); Stream += 3;]: the text behind the
    marker and the character after it.  [Some None] is "marker not
    found"; [None] is a marker with nothing behind it, where the advance
    would leave the buffer. *)
Definition PayloadOf (Str Marker : string) : option (option string) :=
  match FStr.Strfind Str Marker with
  | None => Some None
  | Some At =>
      if (At + 3 <=? String.length Str)%nat
      then Some (Some (FStr.skip (At + 3) Str))
      else None
  end.

Definition SetActorTransformRelativeFromText (a : Actor) (Str : string)
  : option Actor :=
  match PayloadOf Str "T=" with
  | None => None
  | Some T =>
      let a1 :=
        match T with
        | Some Stream =>
            SetActorRelativeLocation a (GetFVECTORSpaceDelimited Stream)
        | None => a
        end in
      match PayloadOf Str "R=" with
      | None => None
      | Some R =>
          let a2 :=
            match R with
            | Some Stream =>
                SetActorRelativeRotation a1
                  (GetFROTATORSpaceDelimited Stream float_1_0)
            | None => a1
            end in
          match PayloadOf Str "S=" with
          | None => None
          | Some S_ =>
              let a3 :=
                match S_ with
                | Some Stream =>
                    SetActorRelativeScale3D a2
                      (GetFVECTORSpaceDelimited Stream)
                | None => a2
                end in
              let a4 := Notify a3 InvalidateLightingCache in
              let a5 := Notify a4 (PostEditMove true) in
              let a6 := Notify a5 CheckDefaultSubobjects in
              Some (Notify a6 MarkPackageDirty)
          end
      end
  end.

(** *** [AddNewActorFromAsset] *)

Definition AddNewActorFromAsset (AssetPath : string) (InLevel_ : ULevel)
           (Name_ : FName) (bSelectActor : bool)
           (Location : FVector float) (ObjectFlags : EObjectFlags)
  : Outcome (option Actor) :=
  match GetAssetFromPath AssetPath with
  | None => Returned None
  | Some Asset =>
      let Name' :=
        if FName_eqb Name_ NAME_None then FName_of "GeneratedName"
        else Name_ in
      match AddActorForAsset Asset Location false bSelectActor
                             ObjectFlags Name' with
      | None => NullDereference
      | Some a => Returned (Some (SetActorLabel a (ToString (GetFName a))))
      end
  end.

End Helpers.

(* ================================================================== *)
(** ** What the helpers rely on from the editor *)
(* ================================================================== *)

(** A rename under [REN_Test] only tests: it leaves the actor as it is. *)
Definition DryRunKeepsActor {E : Editor} : Prop :=
  forall (a : AActor float) (NewName : string) (Flags : list ERenameFlags),
    existsb is_REN_Test Flags = true -> snd (Rename a NewName Flags) = a.

(** The flag word of the dry run in [RenameActor]. *)
Definition DryRunFlags : list ERenameFlags :=
  [REN_Test; REN_DoNotDirty; REN_NonTransactional; REN_DontCreateRedirectors].

(** Does the character occur in the text. *)
Fixpoint HasChar (c : ascii) (s : string) : bool :=
  match s with
  | EmptyString => false
  | String d s' => Ascii.eqb d c || HasChar c s'
  end.

(** Number of blanks in a payload. *)
Fixpoint SpaceCount (s : string) : nat :=
  match s with
  | EmptyString => O
  | String c s' => ((if Ascii.eqb c " " then 1 else 0) + SpaceCount s')%nat
  end.

(** The vector scanner reads three blank-separated components: on a
    payload that holds (at least) two blanks before its closing parenthesis,
    what follows the parenthesis does not matter. *)
Definition ScanStopsAtParen {E : Editor} : Prop :=
  forall p r : string,
    (2 <= SpaceCount p)%nat ->
    GetFVECTORSpaceDelimited (p ++ ")" ++ r)
    = GetFVECTORSpaceDelimited (p ++ ")").

(** A payload in which none of the marker letters occurs. *)
Definition MarkerFree (p : string) : Prop :=
  HasChar "T" p = false /\ HasChar "R" p = false /\ HasChar "S" p = false.

(** The notifications [SetActorTransformRelativeFromText] ends with. *)
Definition TransformNotifications : list ActorEvent :=
  [InvalidateLightingCache; PostEditMove true; CheckDefaultSubobjects;
   MarkPackageDirty].

(** Whether the walk of [Strfind] has an alphanumeric character behind it
    after reading [p]. *)
Fixpoint AlnumAfter (Alnum : bool) (p : string) : bool :=
  match p with
  | EmptyString => Alnum
  | String c p' => AlnumAfter (FStr.is_alnum c) p'
  end.

(** The name [GetFreeName] tries after [TestName]: same table entry, number
    plus one. *)
Definition IncreaseSuffix (TestName : FName) : FName :=
  SetNumber TestName (FStr.wrap_i32 (GetNumber TestName + 1)).

(** The names [GetFreeName] tries in its first [n] turns. *)
Definition Tried (n : nat) (T : FName) : list FName :=
  map (fun j => Nat.iter j IncreaseSuffix T) (seq 0 n).

(** The text of a list literal: the items with commas between them. *)
Fixpoint JoinItems (items : list string) : string :=
  match items with
  | [] => ""
  | [x] => x
  | x :: rest => x ++ "," ++ JoinItems rest
  end.

(* ================================================================== *)
(** ** [GetActorByName] *)
(* ================================================================== *)

(** An object of a level as [GetActorByName] meets it: the actor, and
    what [IsValidLowLevel] answers for it. *)
Record LevelObject (float : Type) : Type := MkLevelObject {
  Object : AActor float;
  IsValidLowLevel : bool
}.
Arguments MkLevelObject {float}.
Arguments Object {float}.
Arguments IsValidLowLevel {float}.

(** A world, as far as the lookup goes: the actors of its current level
    ([InWorld->GetCurrentLevel()]). *)
Definition UWorld (float : Type) : Type := list (LevelObject float).

Section Lookup.

Context {E : Editor}.

(** [FindObject<AActor>(Level, Name, false)]: the first actor of the level
    whose object name is the name read from [Name], if any. *)
Definition FindObject (Level : UWorld float) (Name_ : string)
  : option (LevelObject float) :=
  find (fun o => FName_eqb (GetFName (Object o)) (FName_of Name_)) Level.

(** [GetActorByName(Name, OutActor, InWorld)].  [InWorld] is [None] for the
    default [NULL], in which case the editor's world [EditorWorld] is
    searched.  [OutActor] is what the caller's variable holds at the call;
    the result pairs the returned flag with what it holds afterwards. *)
Definition GetActorByName (Name_ : string) (OutActor : option (AActor float))
           (InWorld : option (UWorld float)) (EditorWorld : UWorld float)
  : bool * option (AActor float) :=
  let InWorld' :=
    match InWorld with
    | None => EditorWorld
    | Some World => World
    end in
  match FindObject InWorld' Name_ with
  | None => (false, OutActor)
  | Some Actor =>
      if negb (IsValidLowLevel Actor) then (false, OutActor)
      else (true, Some (Object Actor))
  end.

(** The object names in use in a world's level. *)
Definition LevelNames (World : UWorld float) : ULevel :=
  map (fun o => GetFName (Object o)) World.

(** A committed rename to the name [RenameActor] asks for gives the actor
    exactly that name. *)
Definition CommitAssigns (a : AActor float) (Name_ : string) : Prop :=
  forall NewFName : FName,
    RenameActor_NewFName Name_ = Some NewFName ->
    fst (Rename a (ToString NewFName) DryRunFlags) = true ->
    GetFName (snd (Rename a (ToString NewFName) [REN_DontCreateRedirectors]))
    = NewFName.

End Lookup.

(** Does the character match an entry of the table, the way
    [ReplaceInline] compares. *)
Fixpoint MatchesTable (Bad : string) (c : ascii) : bool :=
  match Bad with
  | EmptyString => false
  | String b Bad' =>
      Ascii.eqb (FStr.to_upper c) (FStr.to_upper b) || MatchesTable Bad' c
  end.

(** The characters of a text that pass a test, in order. *)
Fixpoint KeepIf (f : ascii -> bool) (s : string) : string :=
  match s with
  | EmptyString => EmptyString
  | String c s' => if f c then String c (KeepIf f s') else KeepIf f s'
  end.

(** The three markers of the transform text. *)
Definition TransformMarkers : list string := ["T="; "R="; "S="].

(* ================================================================== *)
(** ** A small in-memory editor *)
(* ================================================================== *)

(** An executable editor to run the helpers on concrete inputs: numbers are
    integers, names carry their [_n] suffix as the number [n + 1], a rename
    is refused exactly when the requested name is [Occupied], and an asset
    resolves when its path starts with [/Game/]. *)
Module TestEditor.

Definition is_digit (c : ascii) : bool :=
  let n := nat_of_ascii c in ((48 <=? n) && (n <=? 57))%nat.

Definition digit_val (c : ascii) : Z := Z.of_nat (nat_of_ascii c - 48).

Fixpoint digits_val (acc : Z) (s : string) : Z :=
  match s with
  | EmptyString => acc
  | String c s' =>
      if is_digit c then digits_val (10 * acc + digit_val c) s' else acc
  end.

(** Splits a text into what precedes its trailing digits, and them. *)
Fixpoint trailing_digits (s : string) : string * string :=
  match s with
  | EmptyString => ("", "")
  | String c s' =>
      let '(p, d) := trailing_digits s' in
      if FStr.IsEmpty p && is_digit c then ("", String c d)
      else (String c p, d)
  end.

Fixpoint chop_underscore (p : string) : option string :=
  match p with
  | EmptyString => None
  | String c EmptyString => if Ascii.eqb c "_" then Some "" else None
  | String c p' => option_map (String c) (chop_underscore p')
  end.

Definition MAX_int32 : Z := 2147483647.

(** Name from text: the empty text is [NAME_None]; [Base_n] splits into
    [Base] and the number [n + 1] unless [n] has a leading zero or does
    not fit. *)
Definition MakeName (s : string) : FName :=
  if FStr.IsEmpty s then NAME_None
  else
    let '(p, d) := trailing_digits s in
    match chop_underscore p, d with
    | Some base, String d0 d' =>
        if (negb (Ascii.eqb d0 "0") || FStr.IsEmpty d')
           && (digits_val 0 d <=? MAX_int32)
        then MkFName base (digits_val 0 d + 1)
        else MkFName s NAME_NO_NUMBER_INTERNAL
    | _, _ => MkFName s NAME_NO_NUMBER_INTERNAL
    end.

Definition Z_to_string (z : Z) : string :=
  NilZero.string_of_int (Z.to_int z).

Definition NameToString (n : FName) : string :=
  if Number n =? NAME_NO_NUMBER_INTERNAL then ComparisonIndex n
  else ComparisonIndex n ++ "_" ++ Z_to_string (Number n - 1).

Definition InvalidChars : string :=
  String "034" "' ,/.:|&!~"
  ++ String "010" (String "013" (String "009" "@#(){}[]=;^%$`")).

Definition RenameObject (Occupied : list FName) (a : AActor Z) (NewName : string)
           (Flags : list ERenameFlags) : bool * AActor Z :=
  let Free := negb (existsb (FName_eqb (MakeName NewName)) Occupied) in
  if existsb is_REN_Test Flags then (Free, a)
  else if Free
       then (true, MkAActor (MakeName NewName) (ActorLabel a)
                            (RelativeLocation a) (RelativeRotation a)
                            (RelativeScale3D a) (Received a))
       else (false, a).

(** [Atof] on integer texts: leading blanks, a sign, digits. *)
Fixpoint Atof (s : string) : Z :=
  match s with
  | EmptyString => 0
  | String c s' =>
      if Ascii.eqb c " " then Atof s'
      else if Ascii.eqb c "-" then - digits_val 0 s'
      else digits_val 0 s
  end.

(** [Strchr(Stream, ' ')] followed by [++Stream]: the text behind the
    first blank. *)
Fixpoint after_space (s : string) : option string :=
  match s with
  | EmptyString => None
  | String c s' => if Ascii.eqb c " " then Some s' else after_space s'
  end.

Definition ScanVector (Stream : string) : FVector Z :=
  let x := Atof Stream in
  match after_space Stream with
  | None => MkFVector x 0 0
  | Some Stream1 =>
      let y := Atof Stream1 in
      match after_space Stream1 with
      | None => MkFVector x y 0
      | Some Stream2 => MkFVector x y (Atof Stream2)
      end
  end.

Definition ScanRotator (Stream : string) (ScaleFactor : Z)
  : FRotator Z :=
  let v := ScanVector Stream in
  MkFRotator (vX v * ScaleFactor) (vY v * ScaleFactor) (vZ v * ScaleFactor).

Definition ResolveAsset (AssetPath : string) : option string :=
  if FStr.starts_with "/Game/" AssetPath then Some AssetPath else None.

(** The factory places an actor of the requested name, and has no actor
    type for assets under [/Game/Sounds/]. *)
Definition SpawnActor (Asset : string) (Location : FVector Z)
           (bUseSurfaceOrientation bSelectActor : bool) (ObjectFlags : unit)
           (Name_ : FName) : option (AActor Z) :=
  if FStr.starts_with "/Game/Sounds/" Asset then None
  else Some (MkAActor Name_ "Actor" Location (MkFRotator 0 0 0)
                      (MkFVector 1 1 1) []).

Definition editor (Occupied : list FName) : Editor := {|
  float := Z;
  UObject := string;
  EObjectFlags := unit;
  INVALID_OBJECTNAME_CHARACTERS := InvalidChars;
  FName_of := MakeName;
  ToString := NameToString;
  Rename := RenameObject Occupied;
  StaticFindObject_AnyPackage := fun _ => false;
  GetFVECTORSpaceDelimited := ScanVector;
  GetFROTATORSpaceDelimited := ScanRotator;
  float_1_0 := 1;
  GetAssetFromPath := ResolveAsset;
  AddActorForAsset := SpawnActor
|}.

(** An actor as the editor places it. *)
Definition actor (n : FName) (Label : string) : AActor Z :=
  MkAActor n Label (MkFVector 0 0 0) (MkFRotator 10 20 30)
           (MkFVector 1 1 1) [].

(** The editor with nothing in the way of a rename, and the editor in
    which the name [Table] is taken. *)
Definition plain : Editor := editor [].
Definition crowded : Editor := editor [MakeName "Table"].

Definition Chair_5 : FName := MakeName "Chair_5".
Definition Chair_6 : FName := MakeName "Chair_6".

End TestEditor.

(** A level with a valid actor [Chair_5] and a destroyed actor [Chair_6]. *)
Module TestWorld.

Definition world : UWorld Z :=
  [MkLevelObject (TestEditor.actor TestEditor.Chair_5 "Chair_5") true;
   MkLevelObject (TestEditor.actor TestEditor.Chair_6 "Chair_6") false].

End TestWorld.

(* ================================================================== *)
(** * Properties *)
(* ================================================================== *)

(** ** Facts about the string primitives *)

Module FStrFacts.
Import FStr.

Lemma take_app_length (x r : string) : take (String.length x) (x ++ r) = x.
Proof.
  induction x as [|c x IH]; simpl.
  - destruct r; reflexivity.
  - now rewrite IH.
Qed.

Lemma skip_app_length (x r : string) (n : nat) :
  skip (String.length x + n) (x ++ r) = skip n r.
Proof. induction x as [|c x IH]; simpl; auto. Qed.

Lemma length_app (x r : string) :
  String.length (x ++ r) = (String.length x + String.length r)%nat.
Proof. induction x as [|c x IH]; simpl; auto. Qed.

Lemma starts_with_app (f r : string) : starts_with f (f ++ r) = true.
Proof.
  induction f as [|c f IH]; simpl; auto.
  now rewrite Ascii.eqb_refl, IH.
Qed.

(** A text free of the delimiter is not split. *)
Lemma Strstr_char_none (d : ascii) (x : string) :
  HasChar d x = false -> Strstr x (String d "") = None.
Proof.
  induction x as [|c x IH]; simpl; intros Hx; auto.
  apply orb_false_iff in Hx as [Hc Hx].
  rewrite Ascii.eqb_sym, Hc; simpl.
  now rewrite (IH Hx).
Qed.

(** The first delimiter is found right behind a delimiter-free item. *)
Lemma Strstr_char_app (d : ascii) (x r : string) :
  HasChar d x = false ->
  Strstr (x ++ String d r) (String d "") = Some (String.length x).
Proof.
  induction x as [|c x IH]; simpl; intros Hx.
  - now rewrite Ascii.eqb_refl.
  - apply orb_false_iff in Hx as [Hc Hx].
    rewrite Ascii.eqb_sym, Hc; simpl.
    now rewrite (IH Hx).
Qed.

(** [Strfind] only reports places where the marker starts. *)
Lemma Strfind_from_Strstr (Find Str : string) (Alnum : bool) :
  Strstr Str Find = None -> Strfind_from Alnum Str Find = None.
Proof.
  revert Alnum; induction Str as [|c Str IH]; intros Alnum; simpl; auto.
  destruct (starts_with Find (String c Str)) eqn:Hs.
  - discriminate.
  - rewrite andb_false_r.
    destruct (Strstr Str Find) eqn:Hr; simpl; [discriminate|].
    intros _. now rewrite IH.
Qed.

Lemma Strfind_Strstr (Find Str : string) :
  Strstr Str Find = None -> Strfind Str Find = None.
Proof.
  destruct Find; simpl; auto.
  apply Strfind_from_Strstr.
Qed.

Lemma starts_with_length (f t : string) :
  starts_with f t = true -> (String.length f <= String.length t)%nat.
Proof.
  revert t; induction f as [|c f IH]; intros t; simpl; [lia|].
  destruct t as [|c' t]; [discriminate|].
  intros H. apply andb_true_iff in H as [_ H].
  specialize (IH _ H). simpl. lia.
Qed.

Lemma Strfind_from_bound (Find Str : string) (Alnum : bool) (At : nat) :
  Strfind_from Alnum Str Find = Some At ->
  (At + String.length Find <= String.length Str)%nat
  /\ starts_with Find (skip At Str) = true.
Proof.
  revert Alnum At; induction Str as [|c Str IH]; intros Alnum At.
  - discriminate.
  - cbn [Strfind_from].
    destruct (negb Alnum && starts_with Find (String c Str)) eqn:Hs.
    + intros [= <-]. apply andb_true_iff in Hs as [_ Hs].
      split; [|exact Hs].
      apply starts_with_length in Hs. lia.
    + destruct (Strfind_from (is_alnum c) Str Find) as [k|] eqn:Hr;
        simpl; [|discriminate].
      intros [= <-]. destruct (IH _ _ Hr) as [Hb Hp]. split; [lia|exact Hp].
Qed.

End FStrFacts.

(** ** [ParseList] *)

Section ParseListFacts.
Import FStr FStrFacts.

Lemma JoinItems_cons (x y : string) (rest : list string) :
  JoinItems (x :: y :: rest) = x ++ String "," (JoinItems (y :: rest)).
Proof. reflexivity. Qed.

Lemma ParseIntoArray_loop_Join (items : list string) :
  items <> [] ->
  (forall i, In i items -> HasChar "," i = false) ->
  forall fuel, (List.length items <= fuel)%nat ->
  ParseIntoArray_loop fuel (JoinItems items) "," false = items.
Proof.
  induction items as [|x rest IH]; intros Hne Hc fuel Hf; [congruence|].
  destruct fuel as [|fuel]; [simpl in Hf; lia|].
  destruct rest as [|y rest].
  - simpl. rewrite Strstr_char_none by (apply Hc; now left). reflexivity.
  - rewrite JoinItems_cons.
    cbn [ParseIntoArray_loop].
    rewrite Strstr_char_app by (apply Hc; now left).
    cbn [negb orb app].
    rewrite take_app_length.
    change (String "," (JoinItems (y :: rest)))
      with ("," ++ JoinItems (y :: rest)).
    rewrite skip_app_length.
    change (String.length ",") with 1%nat. cbn [skip append].
    rewrite IH; auto.
    + discriminate.
    + intros i Hi. apply Hc. now right.
    + simpl in *. lia.
Qed.

Lemma JoinItems_length (items : list string) :
  (List.length items <= S (String.length (JoinItems items)))%nat.
Proof.
  induction items as [|x rest IH]; [simpl; lia|].
  destruct rest as [|y rest]; [simpl; lia|].
  rewrite JoinItems_cons, length_app. simpl in *. lia.
Qed.

Lemma Mid_chop (J : string) (l r : ascii) :
  Len (String l (J ++ String r "")) < 2 ^ 31 ->
  let Str := String l (J ++ String r "") in
  Mid Str 1 (wrap_i32 (Len Str - 2)) = J.
Proof.
  intros Hlen Str. unfold Mid.
  assert (HL : Len Str = Z.of_nat (String.length J) + 2).
  { unfold Str, Len. simpl String.length. rewrite length_app. simpl. lia. }
  unfold Str in *. rewrite HL in *.
  assert (Hw : wrap_i32 (Z.of_nat (String.length J) + 2 - 2)
               = Z.of_nat (String.length J)).
  { unfold wrap_i32.
    change (2 ^ 31) with 2147483648 in *. change (2 ^ 32) with 4294967296.
    rewrite Z.mod_small by lia. lia. }
  rewrite Hw.
  assert (Hu : wrap_u32 (1 + Z.of_nat (String.length J))
               = 1 + Z.of_nat (String.length J)).
  { unfold wrap_u32.
    change (2 ^ 31) with 2147483648 in *. change (2 ^ 32) with 4294967296.
    apply Z.mod_small. lia. }
  rewrite Hu.
  change (wrap_u32 1) with 1.
  unfold Clamp.
  change (1 <? 0) with false. cbv iota.
  destruct (1 <? Z.of_nat (String.length J) + 2) eqn:H1;
    [|apply Z.ltb_ge in H1; lia].
  destruct (1 + Z.of_nat (String.length J) <? 1) eqn:H2;
    [apply Z.ltb_lt in H2; lia|].
  destruct (1 + Z.of_nat (String.length J) <? Z.of_nat (String.length J) + 2)
    eqn:H3; [|apply Z.ltb_ge in H3; lia].
  replace (Z.to_nat (1 + Z.of_nat (String.length J) - 1))
    with (String.length J) by lia.
  change (Z.to_nat 1) with 1%nat. cbn [skip].
  apply take_app_length.
Qed.

End ParseListFacts.

(** C9.  [ParseList] decodes a bracket-delimited, comma-separated text into
    the sequence of its items, in order and with the empty items kept: for
    every list literal whose items are free of commas (the literal of the
    one-item list holding the empty item apart, which reads as the empty
    list, and the length fitting the engine's 32-bit string length), the
    text [[item1,item2,...]] is decoded to exactly [item1; item2; ...]; so
    [ParseList "[a,b,,d]"] is [a; b; (empty); d]. *)
Theorem ParseList_items (items : list string) :
  items <> [""] ->
  (forall i, In i items -> HasChar "," i = false) ->
  FStr.Len ("[" ++ JoinItems items ++ "]") < 2 ^ 31 ->
  ParseList ("[" ++ JoinItems items ++ "]") = items.
Proof.
  intros Hne Hc Hlen. unfold ParseList.
  change ("[" ++ JoinItems items ++ "]")
    with (String "[" (JoinItems items ++ String "]" "")) in *.
  rewrite (Mid_chop (JoinItems items) "[" "]" Hlen).
  unfold FStr.ParseIntoArray.
  destruct (JoinItems items) as [|c J] eqn:HJ.
  - destruct items as [|x [|y rest]]; [reflexivity| |].
    + simpl in HJ. subst x. congruence.
    + rewrite JoinItems_cons in HJ. destruct x; discriminate.
  - cbn [FStr.IsEmpty orb]. rewrite <- HJ.
    apply ParseIntoArray_loop_Join; auto.
    + intros ->. discriminate.
    + apply JoinItems_length.
Qed.

Lemma ParseList_items_witness : ParseList "[a,b,,d]" = ["a"; "b"; ""; "d"].
Proof.
  apply (ParseList_items ["a"; "b"; ""; "d"]).
  - discriminate.
  - intros i [<-|[<-|[<-|[<-|[]]]]]; reflexivity.
  - reflexivity.
Defined.

(** ** Sanitization *)

Section SanitizeFacts.

Lemma RemoveChar_removes (c : ascii) (s : string) :
  HasChar c (FStr.RemoveChar c s) = false.
Proof.
  induction s as [|d s IH]; simpl; auto.
  destruct (Ascii.eqb (FStr.to_upper d) (FStr.to_upper c)) eqn:Hup; auto.
  simpl. rewrite IH, orb_false_r.
  destruct (Ascii.eqb d c) eqn:Hdc; auto.
  apply Ascii.eqb_eq in Hdc. subst d.
  now rewrite Ascii.eqb_refl in Hup.
Qed.

Lemma RemoveChar_keeps_absent (c d : ascii) (s : string) :
  HasChar d s = false -> HasChar d (FStr.RemoveChar c s) = false.
Proof.
  induction s as [|x s IH]; simpl; auto.
  intros H. apply orb_false_iff in H as [Hx Hs].
  destruct (Ascii.eqb (FStr.to_upper x) (FStr.to_upper c)); auto.
  simpl. now rewrite Hx, IH.
Qed.

Context {E : Editor}.

Lemma StripInvalid_keeps_absent (Bad : string) (d : ascii) :
  forall s, HasChar d s = false -> HasChar d (StripInvalid Bad s) = false.
Proof.
  induction Bad as [|c Bad IH]; intros s Hs; simpl; auto.
  apply IH. now apply RemoveChar_keeps_absent.
Qed.

Lemma StripInvalid_clean (Bad : string) (c : ascii) :
  HasChar c Bad = true ->
  forall s, HasChar c (StripInvalid Bad s) = false.
Proof.
  induction Bad as [|b Bad IH]; simpl; [discriminate|].
  intros Hc s. destruct (Ascii.eqb b c) eqn:Hbc.
  - apply Ascii.eqb_eq in Hbc. subst b.
    apply StripInvalid_keeps_absent, RemoveChar_removes.
  - simpl in Hc. now apply IH.
Qed.

(** No character of the table survives sanitization. *)
Lemma GenerateName_clean (Name_ : string) (c : ascii) :
  HasChar c INVALID_OBJECTNAME_CHARACTERS = true ->
  HasChar c (GenerateName Name_) = false.
Proof. intros Hc. now apply StripInvalid_clean. Qed.

Lemma IsEmpty_true (s : string) : FStr.IsEmpty s = true <-> s = "".
Proof. destruct s; simpl; split; congruence. Qed.

End SanitizeFacts.

(** ** [GetFreeName] *)

Lemma FName_eqb_eq (a b : FName) : FName_eqb a b = true <-> a = b.
Proof.
  destruct a as [ia na], b as [ib nb]; unfold FName_eqb; simpl.
  rewrite andb_true_iff, String.eqb_eq, Z.eqb_eq.
  split; [intros [-> ->]; reflexivity | intros [= -> ->]; auto].
Qed.

Lemma FName_eqb_refl (a : FName) : FName_eqb a a = true.
Proof. now apply FName_eqb_eq. Qed.

Lemma FName_eqb_neq (a b : FName) : FName_eqb a b = false <-> a <> b.
Proof.
  rewrite <- FName_eqb_eq. destruct (FName_eqb a b); split; congruence.
Qed.

Lemma FName_eq_dec (a b : FName) : {a = b} + {a <> b}.
Proof.
  destruct (FName_eqb a b) eqn:H.
  - left. now apply FName_eqb_eq.
  - right. now apply FName_eqb_neq.
Qed.

Lemma wrap_i32_range (x : Z) : - 2 ^ 31 <= FStr.wrap_i32 x < 2 ^ 31.
Proof.
  unfold FStr.wrap_i32.
  change (2 ^ 31) with 2147483648. change (2 ^ 32) with 4294967296.
  pose proof (Z.mod_pos_bound (x + 2147483648) 4294967296). lia.
Qed.

Lemma wrap_i32_succ (x : Z) :
  FStr.wrap_i32 (FStr.wrap_i32 x + 1) = FStr.wrap_i32 (x + 1).
Proof.
  unfold FStr.wrap_i32.
  replace ((x + 2 ^ 31) mod 2 ^ 32 - 2 ^ 31 + 1 + 2 ^ 31)
    with ((x + 2 ^ 31) mod 2 ^ 32 + 1) by lia.
  rewrite Zplus_mod_idemp_l. f_equal. f_equal. lia.
Qed.

(** Two wrapped numbers less than [2^32] steps apart differ. *)
Lemma wrap_i32_apart (x d : Z) :
  0 < d < 2 ^ 32 -> FStr.wrap_i32 (x + d) <> FStr.wrap_i32 x.
Proof.
  unfold FStr.wrap_i32.
  change (2 ^ 31) with 2147483648. change (2 ^ 32) with 4294967296.
  intros Hd Heq.
  pose proof (Z.div_mod (x + d + 2147483648) 4294967296 ltac:(lia)).
  pose proof (Z.div_mod (x + 2147483648) 4294967296 ltac:(lia)).
  lia.
Qed.

Section IncreaseSuffixFacts.

Lemma iter_ComparisonIndex (k : nat) (T : FName) :
  ComparisonIndex (Nat.iter k IncreaseSuffix T) = ComparisonIndex T.
Proof. induction k; simpl; auto. Qed.

Lemma iter_Number (k : nat) (T : FName) :
  Number (Nat.iter (S k) IncreaseSuffix T)
  = FStr.wrap_i32 (Number T + Z.of_nat (S k)).
Proof.
  induction k as [|k IH].
  - reflexivity.
  - change (Nat.iter (S (S k)) IncreaseSuffix T)
      with (IncreaseSuffix (Nat.iter (S k) IncreaseSuffix T)).
    unfold IncreaseSuffix at 1. unfold SetNumber, GetNumber.
    cbn [Number]. rewrite IH, wrap_i32_succ. f_equal. lia.
Qed.

Lemma iter_apart (j k : nat) (T : FName) :
  (j < k)%nat -> Z.of_nat k < 2 ^ 32 ->
  Nat.iter j IncreaseSuffix T <> Nat.iter k IncreaseSuffix T.
Proof.
  intros Hjk Hk Heq. apply (f_equal Number) in Heq.
  destruct k as [|k]; [lia|]. rewrite iter_Number in Heq.
  destruct j as [|j].
  - change (Nat.iter 0 IncreaseSuffix T) with T in Heq.
    assert (Hr := wrap_i32_range (Number T + Z.of_nat (S k))).
    rewrite <- Heq in Hr.
    assert (Hw : FStr.wrap_i32 (Number T) = Number T).
    { unfold FStr.wrap_i32.
      change (2 ^ 31) with 2147483648 in *.
      change (2 ^ 32) with 4294967296.
      rewrite Z.mod_small; lia. }
    rewrite <- Hw in Heq at 1. symmetry in Heq.
    revert Heq. apply wrap_i32_apart. lia.
  - rewrite iter_Number in Heq. symmetry in Heq.
    replace (Number T + Z.of_nat (S k))
      with (Number T + Z.of_nat (S j) + (Z.of_nat k - Z.of_nat j))
      in Heq by lia.
    revert Heq. apply wrap_i32_apart. lia.
Qed.

Lemma Tried_NoDup (n : nat) (T : FName) :
  Z.of_nat n <= 2 ^ 32 -> NoDup (Tried n T).
Proof.
  intros Hn. unfold Tried.
  apply NoDup_map_NoDup_ForallPairs; [|apply seq_NoDup].
  intros i j Hi Hj Heq. apply in_seq in Hi, Hj.
  destruct (Nat.lt_trichotomy i j) as [Hlt|[Hlt|Hlt]]; auto.
  - exfalso. revert Heq. apply iter_apart; lia.
  - exfalso. symmetry in Heq. revert Heq. apply iter_apart; lia.
Qed.

(** Pigeonhole: among the first [length Level + 1] names tried, one is
    not in the level. *)
Lemma free_name_exists (Level : ULevel) (T : FName) :
  Z.of_nat (List.length Level) < 2 ^ 32 ->
  exists j, (j <= List.length Level)%nat
            /\ ~ In (Nat.iter j IncreaseSuffix T) Level.
Proof.
  intros Hlen.
  destruct (Forall_Exists_dec (fun n => In n Level)
              (fun n => in_dec FName_eq_dec n Level)
              (Tried (S (List.length Level)) T)) as [Hall|Hex].
  - exfalso.
    assert (Hnd : NoDup (Tried (S (List.length Level)) T))
      by (apply Tried_NoDup; lia).
    assert (Hincl : incl (Tried (S (List.length Level)) T) Level).
    { intros x Hx. rewrite Forall_forall in Hall. auto. }
    pose proof (NoDup_incl_length Hnd Hincl) as Hle.
    unfold Tried in Hle. rewrite length_map, length_seq in Hle. lia.
  - apply Exists_exists in Hex as (x & Hx & Hfree).
    unfold Tried in Hx. apply in_map_iff in Hx as (j & <- & Hj).
    apply in_seq in Hj. exists j. split; [lia|exact Hfree].
Qed.

End IncreaseSuffixFacts.

Section GetFreeNameFacts.

Context {E : Editor}.

Lemma StaticFindObjectFastInternal_In (Level : ULevel) (n : FName) :
  StaticFindObjectFastInternal Level n = true <-> In n Level.
Proof.
  unfold StaticFindObjectFastInternal. rewrite existsb_exists. split.
  - intros (x & Hx & Heq). apply FName_eqb_eq in Heq. now subst.
  - intros H. exists n. split; [exact H|apply FName_eqb_refl].
Qed.

(** With a free name within reach of the fuel, the loop returns the first
    free name of the sequence it tries. *)
Lemma GetFreeName_loop_first (Level : ULevel) :
  forall fuel T j,
    (j < fuel)%nat ->
    ~ In (Nat.iter j IncreaseSuffix T) Level ->
    exists k,
      (k <= j)%nat
      /\ GetFreeName_loop fuel (InLevel Level) T
         = Some (Nat.iter k IncreaseSuffix T)
      /\ ~ In (Nat.iter k IncreaseSuffix T) Level
      /\ (forall i, (i < k)%nat -> In (Nat.iter i IncreaseSuffix T) Level).
Proof.
  induction fuel as [|fuel IH]; intros T j Hj Hfree; [lia|].
  cbn [GetFreeName_loop ExistingObject].
  destruct (StaticFindObjectFastInternal Level T) eqn:Hfound.
  - apply StaticFindObjectFastInternal_In in Hfound.
    destruct j as [|j]; [contradiction|].
    rewrite Nat.iter_succ_r in Hfree.
    destruct (IH (IncreaseSuffix T) j ltac:(lia) Hfree)
      as (k & Hk & Hret & Hk_free & Hleast).
    exists (S k). rewrite !Nat.iter_succ_r.
    split; [lia|]. split; [exact Hret|]. split; [exact Hk_free|].
    intros [|i] Hi; [exact Hfound|].
    rewrite Nat.iter_succ_r. apply Hleast. lia.
  - exists O. split; [lia|]. split; [reflexivity|]. split.
    + intros Hin. apply StaticFindObjectFastInternal_In in Hin.
      simpl in Hin. congruence.
    + intros i Hi. lia.
Qed.

End GetFreeNameFacts.

(** C3.  [GetFreeName] returns the first identifier, in the sequence that
    starts at the sanitized candidate and increases only the number suffix,
    for which no object is found in the level: the returned identifier is
    not in use, every identifier tried before it is, the base name is the
    sanitized candidate's, and when the candidate itself is in use (an
    object [Chair_5] exists and [Chair_5] is asked for) the result is a
    later member of the sequence and never the candidate.  The candidate's
    identifier is read from the sanitized text, in which no character of
    the forbidden table is left, or is the generated-name marker.  The
    loop returns as soon as the fuel exceeds the number of objects in the
    level. *)
Theorem GetFreeName_first_free {E : Editor} (GEditor : UEditorEngine)
        (Name_ : string) (fuel : nat) :
  let Level := GetCurrentLevel GEditor in
  let TestName := GetFreeName_TestName Name_ in
  Z.of_nat (List.length Level) < 2 ^ 32 ->
  (List.length Level < fuel)%nat ->
  exists k,
    (k <= List.length Level)%nat
    /\ GetFreeName fuel GEditor Name_
       = Some (Nat.iter k IncreaseSuffix TestName)
    /\ ~ In (Nat.iter k IncreaseSuffix TestName) Level
    /\ (forall i, (i < k)%nat -> In (Nat.iter i IncreaseSuffix TestName) Level)
    /\ ComparisonIndex (Nat.iter k IncreaseSuffix TestName)
       = ComparisonIndex TestName
    /\ ((0 < k)%nat ->
        Number (Nat.iter k IncreaseSuffix TestName)
        = FStr.wrap_i32 (Number TestName + Z.of_nat k))
    /\ (In TestName Level ->
        (0 < k)%nat /\ Nat.iter k IncreaseSuffix TestName <> TestName)
    /\ (TestName = FName_of (GenerateName Name_)
        \/ TestName = FName_of M2U_GENERATED_NAME)
    /\ (forall c : ascii,
           HasChar c INVALID_OBJECTNAME_CHARACTERS = true ->
           HasChar c (GenerateName Name_) = false).
Proof.
  intros Level TestName Hlen Hfuel.
  destruct (free_name_exists Level TestName Hlen) as (j & Hj & Hfree).
  destruct (GetFreeName_loop_first Level fuel TestName j ltac:(lia) Hfree)
    as (k & Hk & Hret & Hk_free & Hleast).
  exists k. split; [lia|]. split; [exact Hret|]. split; [exact Hk_free|].
  split; [exact Hleast|]. split; [apply iter_ComparisonIndex|]. split.
  - intros Hpos. destruct k as [|k]; [lia|]. apply iter_Number.
  - split; [|split].
    + intros Hin. destruct k as [|k]; [contradiction|].
      split; [lia|]. intros Heq. apply Hk_free. now rewrite Heq.
    + unfold TestName, GetFreeName_TestName.
      destruct (FName_eqb _ NAME_None); [now right|now left].
    + intros c. apply GenerateName_clean.
Qed.

(** The level holds [Chair_5] and [Chair_6]; asked for [Chair_5], the
    helper answers [Chair_7]. *)
Lemma GetFreeName_first_free_witness :
  option_map (@ToString TestEditor.plain)
    (@GetFreeName TestEditor.plain 3
       (MkGEditor [TestEditor.Chair_5; TestEditor.Chair_6]) "Chair_5")
  = Some "Chair_7"
  /\ exists k,
    (k <= 2)%nat
    /\ @GetFreeName TestEditor.plain 3
         (MkGEditor [TestEditor.Chair_5; TestEditor.Chair_6]) "Chair_5"
       = Some (Nat.iter k IncreaseSuffix TestEditor.Chair_5)
    /\ ~ In (Nat.iter k IncreaseSuffix TestEditor.Chair_5)
            [TestEditor.Chair_5; TestEditor.Chair_6].
Proof.
  split; [reflexivity|].
  destruct (@GetFreeName_first_free TestEditor.plain
              (MkGEditor [TestEditor.Chair_5; TestEditor.Chair_6])
              "Chair_5" 3) as (k & Hk & Hret & Hfree & _).
  - reflexivity.
  - simpl. lia.
  - exists k. split; [exact Hk|]. split; [exact Hret|exact Hfree].
Defined.

(** ** [RenameActor] *)

Section RenameActorFacts.

Context {E : Editor}.

(** The three early returns leave the actor as it is; the remaining path
    commits the rename and writes the label. *)
Lemma RenameActor_Rename_cases (a : AActor float) (NewFName : FName) :
  DryRunKeepsActor ->
  (RenameActor_Rename a NewFName = (GetFName a, a))
  \/ (NewFName <> GetFName a
      /\ fst (Rename a (ToString NewFName) DryRunFlags) = true
      /\ let a2 := snd (Rename a (ToString NewFName)
                               [REN_DontCreateRedirectors]) in
         RenameActor_Rename a NewFName
         = (GetFName a2, SetActorLabel a2 (ToString (GetFName a2)))).
Proof.
  intros Hdry. unfold RenameActor_Rename.
  destruct (FName_eqb (GetFName a) NewFName) eqn:Hsame; [now left|].
  apply FName_eqb_neq in Hsame.
  change ([REN_Test; REN_DoNotDirty; REN_NonTransactional]
            ++ [REN_DontCreateRedirectors])%list with DryRunFlags.
  pose proof (Hdry a (ToString NewFName) DryRunFlags eq_refl) as Hkeep.
  destruct (Rename a (ToString NewFName) DryRunFlags)
    as [bCanRename a1] eqn:Htest.
  simpl in Hkeep. subst a1.
  destruct bCanRename.
  - right. split; [congruence|]. split; reflexivity.
  - now left.
Qed.

End RenameActorFacts.

(** Where the label does follow the name.  [RenameActor] returns the
    identifier the actor has after the call.  Either the call leaves the
    actor exactly as it was (empty sanitization, same name, or rename
    refused), or the label of the actor equals the string form of its
    resulting identifier.  Hence an actor whose label equals the string
    form of its identifier before the call has them equal after it. *)
Theorem RenameActor_label_follows_name {E : Editor} (a : AActor float)
        (Name_ : string) :
  DryRunKeepsActor ->
  fst (RenameActor a Name_) = GetFName (snd (RenameActor a Name_))
  /\ (snd (RenameActor a Name_) = a
      \/ ActorLabel (snd (RenameActor a Name_))
         = ToString (GetFName (snd (RenameActor a Name_))))
  /\ (ActorLabel a = ToString (GetFName a) ->
      ActorLabel (snd (RenameActor a Name_))
      = ToString (GetFName (snd (RenameActor a Name_)))).
Proof.
  intros Hdry.
  assert (Hcases :
            RenameActor a Name_ = (GetFName a, a)
            \/ exists a2, RenameActor a Name_
                          = (GetFName a2,
                             SetActorLabel a2 (ToString (GetFName a2)))).
  { unfold RenameActor.
    destruct (RenameActor_NewFName Name_) as [NewFName|]; [|now left].
    destruct (RenameActor_Rename_cases a NewFName Hdry)
      as [Hkeep|(_ & _ & Hdone)]; [now left|].
    right. eexists. exact Hdone. }
  destruct Hcases as [-> | (a2 & ->)]; simpl.
  - split; [reflexivity|]. split; [now left|auto].
  - split; [reflexivity|]. split; [now right|reflexivity].
Qed.

Lemma TestEditor_DryRunKeepsActor (Occupied : list FName) :
  @DryRunKeepsActor (TestEditor.editor Occupied).
Proof.
  intros a NewName Flags Hflag. simpl. unfold TestEditor.RenameObject.
  now rewrite Hflag.
Qed.

(** A synced actor [Chair_5] renamed to [Stool]: the label follows. *)
Lemma RenameActor_label_follows_name_witness :
  ActorLabel (TestEditor.actor TestEditor.Chair_5 "Chair_5")
  = @ToString TestEditor.plain TestEditor.Chair_5
  /\ ActorLabel
       (snd (@RenameActor TestEditor.plain
               (TestEditor.actor TestEditor.Chair_5 "Chair_5") "Stool"))
     = "Stool".
Proof.
  split; [reflexivity|].
  apply (@RenameActor_label_follows_name TestEditor.plain
           (TestEditor.actor TestEditor.Chair_5 "Chair_5") "Stool").
  - apply TestEditor_DryRunKeepsActor.
  - reflexivity.
Defined.

(** C1.  The label does not equal the string form of the resulting
    identifier on every return path.  The function's header promises a
    label set "to the exact same name as the FName has resulted in", and
    the commit path does set it; the same-name return does not.  An actor
    whose identifier is [Chair_5] and whose label is [My Chair], asked to
    take the name [Chair_5], is answered [Chair_5] and left exactly as it
    was: its label is still [My Chair], not [Chair_5]. *)
Theorem RenameActor_same_name_leaves_label :
  @RenameActor TestEditor.plain
    (TestEditor.actor TestEditor.Chair_5 "My Chair") "Chair_5"
  = (TestEditor.Chair_5, TestEditor.actor TestEditor.Chair_5 "My Chair")
  /\ @ToString TestEditor.plain
       (fst (@RenameActor TestEditor.plain
               (TestEditor.actor TestEditor.Chair_5 "My Chair") "Chair_5"))
     = "Chair_5"
  /\ ActorLabel
       (snd (@RenameActor TestEditor.plain
               (TestEditor.actor TestEditor.Chair_5 "My Chair") "Chair_5"))
     = "My Chair"
  /\ ActorLabel
       (snd (@RenameActor TestEditor.plain
               (TestEditor.actor TestEditor.Chair_5 "My Chair") "Chair_5"))
     <> @ToString TestEditor.plain
          (GetFName
             (snd (@RenameActor TestEditor.plain
                     (TestEditor.actor TestEditor.Chair_5 "My Chair")
                     "Chair_5"))).
Proof.
  split; [reflexivity|]. split; [reflexivity|]. split; [reflexivity|].
  vm_compute. discriminate.
Qed.

(** C4.  When the sanitized candidate differs from the actor's identifier
    and the dry run reports the rename infeasible, [RenameActor] returns
    the prior identifier and the actor is exactly as before: no rename is
    committed. *)
Theorem RenameActor_rejected {E : Editor} (a : AActor float)
        (Name_ : string) (NewFName : FName) :
  DryRunKeepsActor ->
  RenameActor_NewFName Name_ = Some NewFName ->
  NewFName <> GetFName a ->
  fst (Rename a (ToString NewFName) DryRunFlags) = false ->
  RenameActor a Name_ = (GetFName a, a).
Proof.
  intros Hdry Hnew Hdiff Hrefused.
  unfold RenameActor. rewrite Hnew.
  destruct (RenameActor_Rename_cases a NewFName Hdry)
    as [Hkeep|(_ & Hok & _)]; [exact Hkeep|congruence].
Qed.

(** [Table] is taken: [Chair_5] stays [Chair_5]. *)
Lemma RenameActor_rejected_witness :
  @RenameActor TestEditor.crowded
    (TestEditor.actor TestEditor.Chair_5 "Chair_5") "Table"
  = (TestEditor.Chair_5, TestEditor.actor TestEditor.Chair_5 "Chair_5").
Proof.
  apply (@RenameActor_rejected TestEditor.crowded
           (TestEditor.actor TestEditor.Chair_5 "Chair_5") "Table"
           (TestEditor.MakeName "Table")).
  - apply TestEditor_DryRunKeepsActor.
  - reflexivity.
  - discriminate.
  - reflexivity.
Defined.

(** C5 (as amended).  For every actor whose identifier is not the "no
    name" sentinel, contains no forbidden character (sanitization leaves
    its string form alone) and is read back by the engine from its string
    form, [RenameActor] with the actor's own identifier returns that
    identifier and leaves the actor exactly as it was. *)
Theorem RenameActor_idempotent {E : Editor} (a : AActor float) :
  GetFName a <> NAME_None ->
  GenerateName (ToString (GetFName a)) = ToString (GetFName a) ->
  FName_of (ToString (GetFName a)) = GetFName a ->
  RenameActor a (ToString (GetFName a)) = (GetFName a, a).
Proof.
  intros Hnone Hclean Hback.
  unfold RenameActor, RenameActor_NewFName. rewrite Hclean.
  destruct (FStr.IsEmpty (ToString (GetFName a))); [reflexivity|].
  rewrite Hback.
  apply FName_eqb_neq in Hnone. rewrite Hnone.
  unfold RenameActor_Rename. now rewrite FName_eqb_refl.
Qed.

Lemma RenameActor_idempotent_witness :
  @RenameActor TestEditor.plain
    (TestEditor.actor TestEditor.Chair_5 "Chair_5") "Chair_5"
  = (TestEditor.Chair_5, TestEditor.actor TestEditor.Chair_5 "Chair_5").
Proof.
  apply (@RenameActor_idempotent TestEditor.plain
           (TestEditor.actor TestEditor.Chair_5 "Chair_5")).
  - discriminate.
  - reflexivity.
  - reflexivity.
Defined.

(** C5 as stated fails: an actor whose identifier is [None] and which is
    asked to take its own identifier is renamed to the generated-name
    marker. *)
Lemma RenameActor_idempotent_counterexample :
  @RenameActor TestEditor.plain (TestEditor.actor NAME_None "None")
    (@ToString TestEditor.plain
       (GetFName (TestEditor.actor NAME_None "None")))
  <> (GetFName (TestEditor.actor NAME_None "None"),
      TestEditor.actor NAME_None "None").
Proof. vm_compute. discriminate. Qed.

(** C2 (as amended).  A candidate whose sanitized form the engine reads as
    the "no name" sentinel is replaced by the generated-name marker in the
    sanitization step of both [RenameActor] and [GetFreeName].  A candidate
    that sanitization strips to the empty text is replaced by the marker in
    [GetFreeName] (the engine reads the empty text as "no name"), whereas
    [RenameActor] substitutes nothing: it returns the actor's current
    identifier and leaves the actor as it is.  Neither helper has an error
    result. *)
Theorem generated_name_substitution {E : Editor} (Name_ : string) :
  (FName_of (GenerateName Name_) = NAME_None ->
   GetFreeName_TestName Name_ = FName_of M2U_GENERATED_NAME)
  /\ (FName_of (GenerateName Name_) = NAME_None ->
      GenerateName Name_ <> "" ->
      RenameActor_NewFName Name_ = Some (FName_of M2U_GENERATED_NAME))
  /\ (GenerateName Name_ = "" -> FName_of "" = NAME_None ->
      GetFreeName_TestName Name_ = FName_of M2U_GENERATED_NAME)
  /\ (GenerateName Name_ = "" ->
      RenameActor_NewFName Name_ = None
      /\ forall a : AActor float, RenameActor a Name_ = (GetFName a, a)).
Proof.
  assert (Hfree : FName_of (GenerateName Name_) = NAME_None ->
                  GetFreeName_TestName Name_ = FName_of M2U_GENERATED_NAME).
  { intros Hnone. unfold GetFreeName_TestName.
    now rewrite Hnone, FName_eqb_refl. }
  split; [exact Hfree|]. split; [|split].
  - intros Hnone Hne. unfold RenameActor_NewFName.
    destruct (FStr.IsEmpty (GenerateName Name_)) eqn:Hemp.
    + apply IsEmpty_true in Hemp. contradiction.
    + now rewrite Hnone, FName_eqb_refl.
  - intros Hemp Hhost. apply Hfree. now rewrite Hemp.
  - intros Hemp.
    assert (Hnew : RenameActor_NewFName Name_ = None).
    { unfold RenameActor_NewFName. now rewrite Hemp. }
    split; [exact Hnew|]. intros a. unfold RenameActor. now rewrite Hnew.
Qed.

(** The candidate [None] gives the marker in both helpers; the candidate
    [#()], stripped to nothing, gives the marker in [GetFreeName] and the
    early return in [RenameActor]. *)
Lemma generated_name_substitution_witness :
  @GetFreeName_TestName TestEditor.plain "None"
  = MkFName "m2uGeneratedName" 0
  /\ @RenameActor_NewFName TestEditor.plain "None"
     = Some (MkFName "m2uGeneratedName" 0)
  /\ @GetFreeName_TestName TestEditor.plain "#()"
     = MkFName "m2uGeneratedName" 0
  /\ @RenameActor_NewFName TestEditor.plain "#()" = None.
Proof.
  destruct (@generated_name_substitution TestEditor.plain "None")
    as (Hfree & Hren & _ & _).
  destruct (@generated_name_substitution TestEditor.plain "#()")
    as (_ & _ & Hfree' & Hren').
  split; [apply Hfree; reflexivity|].
  split; [apply Hren; [reflexivity|discriminate]|].
  split; [apply Hfree'; reflexivity|].
  apply Hren'. reflexivity.
Defined.

(** C2 as stated fails for [RenameActor]: the candidate [#()] is stripped
    to the empty text, and the sanitization step does not yield the
    marker. *)
Lemma generated_name_counterexample :
  ~ (@GenerateName TestEditor.plain "#()" = "" ->
     @RenameActor_NewFName TestEditor.plain "#()"
     = Some (@FName_of TestEditor.plain M2U_GENERATED_NAME)).
Proof. intros H. specialize (H eq_refl). vm_compute in H. discriminate. Qed.

(** ** [SetActorTransformRelativeFromText] *)

Section DecoderFacts.
Import FStr FStrFacts.

Lemma HasChar_app (c : ascii) (x y : string) :
  HasChar c (x ++ y) = HasChar c x || HasChar c y.
Proof.
  induction x as [|d x IH]; simpl; auto.
  now rewrite IH, orb_assoc.
Qed.

(** A text without the marker's first letter holds no marker. *)
Lemma Strfind_from_absent (f : ascii) (Find' s : string) (Alnum : bool) :
  HasChar f s = false -> Strfind_from Alnum s (String f Find') = None.
Proof.
  revert Alnum; induction s as [|c s IH]; intros Alnum H; simpl; auto.
  simpl in H. apply orb_false_iff in H as [Hc Hs].
  rewrite Ascii.eqb_sym, Hc, andb_false_r. simpl.
  now rewrite IH.
Qed.

(** The walk passes over a stretch without the marker's first letter. *)
Lemma Strfind_from_pass (f : ascii) (Find' p rest : string) (Alnum : bool) :
  HasChar f p = false ->
  Strfind_from Alnum (p ++ rest) (String f Find')
  = option_map (Nat.add (String.length p))
      (Strfind_from (AlnumAfter Alnum p) rest (String f Find')).
Proof.
  revert Alnum; induction p as [|c p IH]; intros Alnum H.
  - simpl. now destruct (Strfind_from Alnum rest (String f Find')).
  - simpl in H. apply orb_false_iff in H as [Hc Hp].
    cbn [append Strfind_from starts_with AlnumAfter String.length].
    rewrite Ascii.eqb_sym, Hc, andb_false_r. cbn [andb].
    rewrite (IH _ Hp).
    now destruct (Strfind_from (AlnumAfter (is_alnum c) p) rest
                    (String f Find')).
Qed.

Context {E : Editor}.

Lemma PayloadOf_absent (Str Marker : string) :
  Strstr Str Marker = None -> PayloadOf Str Marker = Some None.
Proof.
  intros H. unfold PayloadOf. now rewrite (Strfind_Strstr _ _ H).
Qed.

(** What the decoder stores, field by field. *)
Lemma SetActorTransformRelativeFromText_fields
      (a a' : AActor float) (Str : string) :
  SetActorTransformRelativeFromText a Str = Some a' ->
  exists T R S_,
    PayloadOf Str "T=" = Some T /\ PayloadOf Str "R=" = Some R
    /\ PayloadOf Str "S=" = Some S_
    /\ RelativeLocation a'
       = match T with
         | Some Stream => GetFVECTORSpaceDelimited Stream
         | None => RelativeLocation a
         end
    /\ RelativeRotation a'
       = match R with
         | Some Stream => GetFROTATORSpaceDelimited Stream float_1_0
         | None => RelativeRotation a
         end
    /\ RelativeScale3D a'
       = match S_ with
         | Some Stream => GetFVECTORSpaceDelimited Stream
         | None => RelativeScale3D a
         end
    /\ Name a' = Name a /\ ActorLabel a' = ActorLabel a
    /\ Received a' = (Received a ++ TransformNotifications)%list.
Proof.
  unfold SetActorTransformRelativeFromText.
  destruct (PayloadOf Str "T=") as [T|]; [|discriminate].
  destruct (PayloadOf Str "R=") as [R|]; [|discriminate].
  destruct (PayloadOf Str "S=") as [S_|]; [|discriminate].
  intros [= <-]. exists T, R, S_.
  repeat (split; [reflexivity|]).
  destruct T, R, S_; cbn;
    repeat (split; [reflexivity|]);
    unfold TransformNotifications; repeat rewrite <- app_assoc;
    reflexivity.
Qed.

End DecoderFacts.

(** C6.  Transform patch application is field-independent.  The text
    [T=(1 2 3)] sets the relative location to what the scanner reads from
    [1 2 3)] and leaves rotation and scale as they were; and for every text
    the decoder returns on, a component whose marker does not occur in the
    text keeps its value: an absent marker never resets its component. *)
Theorem transform_fields_independent {E : Editor} (a : AActor float) :
  (exists a',
      SetActorTransformRelativeFromText a "T=(1 2 3)" = Some a'
      /\ RelativeLocation a' = GetFVECTORSpaceDelimited "1 2 3)"
      /\ RelativeRotation a' = RelativeRotation a
      /\ RelativeScale3D a' = RelativeScale3D a)
  /\ forall (Str : string) (a' : AActor float),
      SetActorTransformRelativeFromText a Str = Some a' ->
      (FStr.Strstr Str "T=" = None ->
       RelativeLocation a' = RelativeLocation a)
      /\ (FStr.Strstr Str "R=" = None ->
          RelativeRotation a' = RelativeRotation a)
      /\ (FStr.Strstr Str "S=" = None ->
          RelativeScale3D a' = RelativeScale3D a).
Proof.
  split.
  - eexists. split; [reflexivity|]. repeat split.
  - intros Str a' Hret.
    destruct (SetActorTransformRelativeFromText_fields a a' Str Hret)
      as (T & R & S_ & HT & HR & HS & Hloc & Hrot & Hscale & _).
    repeat split; intros Habsent.
    + rewrite (PayloadOf_absent _ _ Habsent) in HT.
      injection HT as <-. exact Hloc.
    + rewrite (PayloadOf_absent _ _ Habsent) in HR.
      injection HR as <-. exact Hrot.
    + rewrite (PayloadOf_absent _ _ Habsent) in HS.
      injection HS as <-. exact Hscale.
Qed.

(** An actor with rotation (10, 20, 30) and the text [T=(1 2 3)]: the
    location becomes (1, 2, 3), rotation and scale stay. *)
Lemma transform_fields_independent_witness :
  exists a',
    @SetActorTransformRelativeFromText TestEditor.plain
      (TestEditor.actor TestEditor.Chair_5 "Chair_5") "T=(1 2 3)" = Some a'
    /\ RelativeLocation a' = MkFVector 1 2 3
    /\ RelativeRotation a' = MkFRotator 10 20 30
    /\ RelativeScale3D a' = MkFVector 1 1 1.
Proof.
  destruct (@transform_fields_independent TestEditor.plain
              (TestEditor.actor TestEditor.Chair_5 "Chair_5"))
    as [(a' & Hret & Hloc & _) Hframe].
  exists a'. split; [exact Hret|]. split; [exact Hloc|].
  destruct (Hframe "T=(1 2 3)" a' Hret) as (_ & Hrot & Hscale).
  split; [apply Hrot; reflexivity | apply Hscale; reflexivity].
Defined.

(** C8.  On a text in which none of the markers [T=], [R=], [S=] occurs,
    the decoder leaves name, label and the whole relative transform as they
    were, and still delivers the four notifications, in order: lighting
    cache invalidation, post-edit-move, default-subobject check, mark
    package dirty. *)
Theorem transform_no_marker {E : Editor} (a : AActor float) (Str : string) :
  FStr.Strstr Str "T=" = None ->
  FStr.Strstr Str "R=" = None ->
  FStr.Strstr Str "S=" = None ->
  SetActorTransformRelativeFromText a Str
  = Some (MkAActor (Name a) (ActorLabel a) (RelativeLocation a)
                   (RelativeRotation a) (RelativeScale3D a)
                   (Received a ++ TransformNotifications)).
Proof.
  intros HT HR HS. unfold SetActorTransformRelativeFromText.
  rewrite (PayloadOf_absent _ _ HT), (PayloadOf_absent _ _ HR),
    (PayloadOf_absent _ _ HS).
  unfold Notify, TransformNotifications; cbn.
  repeat rewrite <- app_assoc. reflexivity.
Qed.

Lemma transform_no_marker_witness :
  @SetActorTransformRelativeFromText TestEditor.plain
    (TestEditor.actor TestEditor.Chair_5 "Chair_5") "select Chair_5"
  = Some (MkAActor TestEditor.Chair_5 "Chair_5" (MkFVector 0 0 0)
                   (MkFRotator 10 20 30) (MkFVector 1 1 1)
                   TransformNotifications).
Proof.
  apply (@transform_no_marker TestEditor.plain
           (TestEditor.actor TestEditor.Chair_5 "Chair_5") "select Chair_5");
    reflexivity.
Defined.

Section MarkerOrderFacts.
Import FStr FStrFacts.

Lemma append_assoc (x y z : string) : (x ++ y) ++ z = x ++ y ++ z.
Proof. induction x as [|c x IH]; simpl; congruence. Qed.

Context {E : Editor}.

(** A marker found at [At], with [pre] the text up to and including the
    character behind the marker: the payload is what follows [pre]. *)
Lemma PayloadOf_found (Str Marker pre post : string) (At : nat) :
  Strfind Str Marker = Some At ->
  Str = pre ++ post ->
  String.length pre = (At + 3)%nat ->
  PayloadOf Str Marker = Some (Some post).
Proof.
  intros Hfind -> Hpre. unfold PayloadOf. rewrite Hfind.
  rewrite length_app, <- Hpre.
  destruct (String.length pre <=? String.length pre + String.length post)%nat
    eqn:Hle; [|apply Nat.leb_gt in Hle; lia].
  rewrite <- (Nat.add_0_r (String.length pre)).
  now rewrite skip_app_length.
Qed.

Lemma PayloadOf_letter_absent (Str Find' : string) (f : ascii) :
  HasChar f Str = false -> PayloadOf Str (String f Find') = Some None.
Proof.
  intros H. unfold PayloadOf, Strfind.
  now rewrite (Strfind_from_absent f Find' Str false H).
Qed.

(** The second marker of a two-marker text is found behind the first
    payload, when that payload does not hold the marker's letter. *)
Lemma Strfind_second (m1 m2 : ascii) (p1 tail : string) :
  Ascii.eqb m2 m1 = false ->
  Ascii.eqb m2 "=" = false ->
  Ascii.eqb m2 "(" = false ->
  Ascii.eqb m2 ")" = false ->
  Ascii.eqb m2 " " = false ->
  HasChar m2 p1 = false ->
  Strfind (String m1 ("=(" ++ p1 ++ String ")" (String " " (String m2 ("=(" ++ tail)))))
          (String m2 "=")
  = Some (String.length p1 + 5)%nat.
Proof.
  intros H1 H2 H3 H4 H5 Hp. unfold Strfind.
  cbn [append Strfind_from starts_with].
  rewrite H1, H2, H3. cbn [andb negb option_map].
  rewrite !andb_false_r. cbn [option_map].
  rewrite (Strfind_from_pass m2 "=" p1 _ _ Hp).
  cbn [Strfind_from starts_with].
  rewrite H4, H5, !andb_false_r, !Ascii.eqb_refl.
  change (is_alnum " ") with false. cbn [negb andb option_map].
  f_equal. lia.
Qed.

End MarkerOrderFacts.

(** C7.  Marker order in the text does not affect the result.  For an
    editor whose vector scanner reads three blank-separated components, and
    payloads that hold three components and none of the marker letters, the
    text with the [S=] marker first and the text with the [T=] marker first
    give the same actor: location from the [T=] payload, scale from the
    [S=] payload, rotation kept, notifications delivered.  The texts
    [S=(2 2 2) T=(0 0 0)] and [T=(0 0 0) S=(2 2 2)] are the instance
    [pT = 0 0 0], [pS = 2 2 2]. *)
Theorem transform_marker_order {E : Editor} (a : AActor float)
        (pT pS : string) :
  ScanStopsAtParen ->
  MarkerFree pT -> MarkerFree pS ->
  (2 <= SpaceCount pT)%nat -> (2 <= SpaceCount pS)%nat ->
  SetActorTransformRelativeFromText a ("S=(" ++ pS ++ ") T=(" ++ pT ++ ")")
  = Some (MkAActor (Name a) (ActorLabel a)
                   (GetFVECTORSpaceDelimited (pT ++ ")"))
                   (RelativeRotation a)
                   (GetFVECTORSpaceDelimited (pS ++ ")"))
                   (Received a ++ TransformNotifications))
  /\ SetActorTransformRelativeFromText a
       ("T=(" ++ pT ++ ") S=(" ++ pS ++ ")")
     = SetActorTransformRelativeFromText a
         ("S=(" ++ pS ++ ") T=(" ++ pT ++ ")").
Proof.
  intros Hscan (HT_T & HT_R & HT_S) (HS_T & HS_R & HS_S) HnT HnS.
  assert (H1T : PayloadOf ("S=(" ++ pS ++ ") T=(" ++ pT ++ ")") "T="
                = Some (Some (pT ++ ")"))).
  { apply PayloadOf_found
      with (pre := "S=(" ++ pS ++ ") T=(") (At := (String.length pS + 5)%nat).
    - apply (Strfind_second "S" "T" pS (pT ++ ")")); auto.
    - cbn [append]. do 3 f_equal. now rewrite append_assoc.
    - cbn [append String.length]. rewrite FStrFacts.length_app. simpl. lia. }
  assert (H1R : PayloadOf ("S=(" ++ pS ++ ") T=(" ++ pT ++ ")") "R="
                = Some None).
  { apply PayloadOf_letter_absent. cbn [append HasChar].
    rewrite HasChar_app, HS_R. cbn [append HasChar].
    rewrite HasChar_app, HT_R. reflexivity. }
  assert (H1S : PayloadOf ("S=(" ++ pS ++ ") T=(" ++ pT ++ ")") "S="
                = Some (Some (pS ++ ")" ++ " T=(" ++ pT ++ ")"))).
  { apply PayloadOf_found with (pre := "S=(") (At := O); reflexivity. }
  assert (H2T : PayloadOf ("T=(" ++ pT ++ ") S=(" ++ pS ++ ")") "T="
                = Some (Some (pT ++ ")" ++ " S=(" ++ pS ++ ")"))).
  { apply PayloadOf_found with (pre := "T=(") (At := O); reflexivity. }
  assert (H2R : PayloadOf ("T=(" ++ pT ++ ") S=(" ++ pS ++ ")") "R="
                = Some None).
  { apply PayloadOf_letter_absent. cbn [append HasChar].
    rewrite HasChar_app, HT_R. cbn [append HasChar].
    rewrite HasChar_app, HS_R. reflexivity. }
  assert (H2S : PayloadOf ("T=(" ++ pT ++ ") S=(" ++ pS ++ ")") "S="
                = Some (Some (pS ++ ")"))).
  { apply PayloadOf_found
      with (pre := "T=(" ++ pT ++ ") S=(") (At := (String.length pT + 5)%nat).
    - apply (Strfind_second "T" "S" pT (pS ++ ")")); auto.
    - cbn [append]. do 3 f_equal. now rewrite append_assoc.
    - cbn [append String.length]. rewrite FStrFacts.length_app. simpl. lia. }
  unfold SetActorTransformRelativeFromText.
  rewrite H1T, H1R, H1S, H2T, H2R, H2S.
  rewrite !(Hscan _ _ HnS), !(Hscan _ _ HnT).
  split; [|reflexivity].
  unfold Notify, TransformNotifications; cbn.
  repeat rewrite <- app_assoc. reflexivity.
Qed.

(** The in-memory editor's scanner reads three components. *)
Section TestEditorScanner.
Import TestEditor.

Lemma digits_val_stops (s r : string) (acc : Z) :
  digits_val acc (s ++ ")" ++ r) = digits_val acc (s ++ ")").
Proof.
  revert acc; induction s as [|c s IH]; intros acc; [reflexivity|].
  cbn [append digits_val]. destruct (is_digit c); auto.
Qed.

Lemma Atof_stops (s r : string) : Atof (s ++ ")" ++ r) = Atof (s ++ ")").
Proof.
  induction s as [|c s IH]; [reflexivity|].
  cbn [append Atof].
  destruct (Ascii.eqb c " "); [exact IH|].
  destruct (Ascii.eqb c "-").
  - f_equal. apply (digits_val_stops s r).
  - apply (digits_val_stops (String c s) r).
Qed.

Lemma after_space_app (s : string) :
  (1 <= SpaceCount s)%nat ->
  exists w, SpaceCount w = (SpaceCount s - 1)%nat
            /\ forall t, after_space (s ++ t) = Some (w ++ t).
Proof.
  induction s as [|c s IH]; cbn [SpaceCount]; [lia|].
  intros H. cbn [append after_space].
  destruct (Ascii.eqb c " ").
  - exists s. split; [lia|reflexivity].
  - destruct (IH ltac:(simpl in H; lia)) as (w & Hw & Hafter).
    exists w. split; [simpl; lia|exact Hafter].
Qed.

Lemma TestEditor_ScanStopsAtParen (Occupied : list FName) :
  @ScanStopsAtParen (editor Occupied).
Proof.
  intros p r Hp. cbn [GetFVECTORSpaceDelimited editor].
  destruct (after_space_app p ltac:(lia)) as (w1 & Hw1 & H1).
  destruct (after_space_app w1 ltac:(lia)) as (w2 & Hw2 & H2).
  unfold ScanVector.
  rewrite !H1, !H2, !Atof_stops. reflexivity.
Qed.

End TestEditorScanner.

(** The two texts of the claim, on the in-memory editor: both give location
    (0, 0, 0) and scale (2, 2, 2). *)
Lemma transform_marker_order_witness :
  @SetActorTransformRelativeFromText TestEditor.plain
    (TestEditor.actor TestEditor.Chair_5 "Chair_5") "S=(2 2 2) T=(0 0 0)"
  = Some (MkAActor TestEditor.Chair_5 "Chair_5" (MkFVector 0 0 0)
                   (MkFRotator 10 20 30) (MkFVector 2 2 2)
                   TransformNotifications)
  /\ @SetActorTransformRelativeFromText TestEditor.plain
       (TestEditor.actor TestEditor.Chair_5 "Chair_5") "T=(0 0 0) S=(2 2 2)"
     = @SetActorTransformRelativeFromText TestEditor.plain
         (TestEditor.actor TestEditor.Chair_5 "Chair_5") "S=(2 2 2) T=(0 0 0)".
Proof.
  apply (@transform_marker_order TestEditor.plain
           (TestEditor.actor TestEditor.Chair_5 "Chair_5") "0 0 0" "2 2 2").
  - apply TestEditor_ScanStopsAtParen.
  - repeat split.
  - repeat split.
  - simpl. lia.
  - simpl. lia.
Defined.

(** ** [AddNewActorFromAsset] *)

(** C10.  [AddNewActorFromAsset] returns "none" exactly when the asset path
    does not resolve.  Once the asset resolves, the actor handed back by
    the factory is dereferenced without a test: when the factory hands
    back no actor the helper faults instead of returning "none", and when
    it hands back an actor the helper returns that actor with its label set
    to the string form of its identifier. *)
Theorem AddNewActorFromAsset_outcomes {E : Editor} (AssetPath : string)
        (InLevel_ : ULevel) (Name_ : FName) (bSelectActor : bool)
        (Location : FVector float) (ObjectFlags : EObjectFlags) :
  (AddNewActorFromAsset AssetPath InLevel_ Name_ bSelectActor Location
                        ObjectFlags = Returned None
   <-> GetAssetFromPath AssetPath = None)
  /\ (forall Asset : UObject,
         GetAssetFromPath AssetPath = Some Asset ->
         AddActorForAsset Asset Location false bSelectActor ObjectFlags
           (if FName_eqb Name_ NAME_None then FName_of "GeneratedName"
            else Name_) = None ->
         AddNewActorFromAsset AssetPath InLevel_ Name_ bSelectActor Location
                              ObjectFlags = NullDereference)
  /\ (forall (Asset : UObject) (a : AActor float),
         GetAssetFromPath AssetPath = Some Asset ->
         AddActorForAsset Asset Location false bSelectActor ObjectFlags
           (if FName_eqb Name_ NAME_None then FName_of "GeneratedName"
            else Name_) = Some a ->
         AddNewActorFromAsset AssetPath InLevel_ Name_ bSelectActor Location
                              ObjectFlags
         = Returned (Some (SetActorLabel a (ToString (GetFName a))))).
Proof.
  unfold AddNewActorFromAsset.
  destruct (GetAssetFromPath AssetPath) as [Asset|].
  - split; [|split].
    + destruct (AddActorForAsset _ _ _ _ _ _); split; discriminate.
    + intros Asset' [= <-] ->. reflexivity.
    + intros Asset' a [= <-] ->. reflexivity.
  - split; [split; reflexivity|]. split; discriminate.
Qed.

(** On the in-memory editor: a path outside [/Game/] gives "none", a sound
    asset (no actor type) faults, a mesh gives a labelled actor. *)
Lemma AddNewActorFromAsset_outcomes_witness :
  @AddNewActorFromAsset TestEditor.plain "Chair" [] NAME_None true
    (MkFVector 0 0 0) tt = Returned None
  /\ @AddNewActorFromAsset TestEditor.plain "/Game/Sounds/Creak" [] NAME_None
       true (MkFVector 0 0 0) tt = NullDereference
  /\ @AddNewActorFromAsset TestEditor.plain "/Game/Meshes/Chair" []
       TestEditor.Chair_5 true (MkFVector 0 0 0) tt
     = Returned (Some (MkAActor TestEditor.Chair_5 "Chair_5"
                                (MkFVector 0 0 0) (MkFRotator 0 0 0)
                                (MkFVector 1 1 1) [])).
Proof.
  split; [|split].
  - apply (@AddNewActorFromAsset_outcomes TestEditor.plain "Chair" []
             NAME_None true (MkFVector 0 0 0) tt).
    reflexivity.
  - destruct (@AddNewActorFromAsset_outcomes TestEditor.plain
                "/Game/Sounds/Creak" [] NAME_None true (MkFVector 0 0 0) tt)
      as (_ & Hfault & _).
    apply (Hfault "/Game/Sounds/Creak"); reflexivity.
  - destruct (@AddNewActorFromAsset_outcomes TestEditor.plain
                "/Game/Meshes/Chair" [] TestEditor.Chair_5 true
                (MkFVector 0 0 0) tt)
      as (_ & _ & Hlabel).
    apply (Hlabel "/Game/Meshes/Chair"
                  (MkAActor TestEditor.Chair_5 "Actor" (MkFVector 0 0 0)
                            (MkFRotator 0 0 0) (MkFVector 1 1 1) []));
      reflexivity.
Defined.

(** ** The helpers on the in-memory editor *)

Example ParseList_empty_brackets : ParseList "[]" = [].
Proof. reflexivity. Qed.

Example ParseList_two_empty_items : ParseList "[,]" = [""; ""].
Proof. reflexivity. Qed.

Example GenerateName_strips :
  @GenerateName TestEditor.plain "Cha ir#1" = "Chair1".
Proof. reflexivity. Qed.

Example GetFreeName_Chair_6 :
  option_map (@ToString TestEditor.plain)
    (@GetFreeName TestEditor.plain 2 (MkGEditor [TestEditor.Chair_5])
       "Chair_5")
  = Some "Chair_6".
Proof. reflexivity. Qed.

Example GetFreeName_free_candidate :
  option_map (@ToString TestEditor.plain)
    (@GetFreeName TestEditor.plain 2 (MkGEditor [TestEditor.Chair_6])
       "Chair_5")
  = Some "Chair_5".
Proof. reflexivity. Qed.

Example decoder_marker_without_payload :
  @SetActorTransformRelativeFromText TestEditor.plain
    (TestEditor.actor TestEditor.Chair_5 "Chair_5") "T=" = None.
Proof. reflexivity. Qed.

(* ================================================================== *)
(** * Further properties of the helpers *)
(* ================================================================== *)

(** ** [ParseList]: edges and the way back *)

Section ParseListMoreFacts.
Import FStr FStrFacts.

Lemma Strstr_char_Some (d : ascii) (s : string) (At : nat) :
  Strstr s (String d "") = Some At ->
  HasChar d (take At s) = false
  /\ s = take At s ++ String d (skip (At + 1) s).
Proof.
  revert At; induction s as [|c s IH]; intros At; simpl.
  - discriminate.
  - destruct (Ascii.eqb d c) eqn:Hdc; simpl.
    + intros [= <-]. apply Ascii.eqb_eq in Hdc. subst c. now split.
    + destruct (Strstr s (String d "")) as [k|] eqn:Hk; [|discriminate].
      simpl. intros [= <-]. destruct (IH k eq_refl) as [Hno Hs].
      simpl. rewrite Ascii.eqb_sym, Hdc. split; [exact Hno|].
      now rewrite <- Hs.
Qed.

Lemma Strstr_char_None (d : ascii) (s : string) :
  Strstr s (String d "") = None -> HasChar d s = false.
Proof.
  induction s as [|c s IH]; simpl; auto.
  destruct (Ascii.eqb d c) eqn:Hdc; simpl; [discriminate|].
  destruct (Strstr s (String d "")); [discriminate|].
  intros _. rewrite Ascii.eqb_sym, Hdc. now apply IH.
Qed.

Lemma length_skip (n : nat) (s : string) :
  String.length (skip n s) = (String.length s - n)%nat.
Proof.
  revert s; induction n as [|n IH]; intros s; simpl; [lia|].
  destruct s; simpl; auto.
Qed.

Lemma Strstr_char_lt (d : ascii) (s : string) (At : nat) :
  Strstr s (String d "") = Some At -> (At < String.length s)%nat.
Proof.
  revert At; induction s as [|c s IH]; intros At; simpl.
  - discriminate.
  - destruct (Ascii.eqb d c); simpl.
    + intros [= <-]. lia.
    + destruct (Strstr s (String d "")) as [k|]; [|discriminate].
      simpl. intros [= <-]. specialize (IH k eq_refl). lia.
Qed.

Lemma ParseIntoArray_loop_comma_free (fuel : nat) :
  forall s i,
    In i (ParseIntoArray_loop fuel s "," false) -> HasChar "," i = false.
Proof.
  induction fuel as [|fuel IH]; intros s i; [intros []|].
  cbn [ParseIntoArray_loop].
  destruct (Strstr s ",") as [At|] eqn:Hfind.
  - cbn [negb orb app]. intros [<-|Hin].
    + apply (Strstr_char_Some "," s At Hfind).
    + exact (IH _ _ Hin).
  - cbn [negb orb]. intros [<-|[]]. now apply Strstr_char_None.
Qed.

Lemma ParseIntoArray_loop_rejoin (fuel : nat) :
  forall s, (String.length s < fuel)%nat ->
            JoinItems (ParseIntoArray_loop fuel s "," false) = s.
Proof.
  induction fuel as [|fuel IH]; intros s Hlen; [lia|].
  cbn [ParseIntoArray_loop].
  destruct (Strstr s ",") as [At|] eqn:Hfind; [|reflexivity].
  cbn [negb orb app].
  destruct (Strstr_char_Some "," s At Hfind) as [_ Hs].
  pose proof (Strstr_char_lt "," s At Hfind) as Hlt.
  change (String.length ",") with 1%nat.
  assert (Hrest : (String.length (skip (At + 1) s) < fuel)%nat)
    by (rewrite length_skip; lia).
  specialize (IH _ Hrest).
  destruct fuel as [|fuel']; [lia|].
  destruct (ParseIntoArray_loop (S fuel') (skip (At + 1) s) "," false)
    as [|y rest] eqn:Hloop.
  - exfalso. revert Hloop. cbn [ParseIntoArray_loop].
    destruct (Strstr (skip (At + 1) s) ","); discriminate.
  - rewrite JoinItems_cons, IH. now rewrite <- Hs.
Qed.

Lemma ParseIntoArray_rejoin (s : string) :
  JoinItems (ParseIntoArray s "," false) = s.
Proof.
  unfold ParseIntoArray. destruct s as [|c s]; [reflexivity|].
  cbn [IsEmpty orb]. apply ParseIntoArray_loop_rejoin. lia.
Qed.

End ParseListMoreFacts.

(** X1.  [ParseList] never looks at the two characters it chops: whatever
    the first and the last character of the text are, the result is the
    split of what lies between them. *)
Theorem ParseList_ignores_delimiters (l r : ascii) (J : string) :
  FStr.Len (String l (J ++ String r "")) < 2 ^ 31 ->
  ParseList (String l (J ++ String r "")) = FStr.ParseIntoArray J "," false.
Proof.
  intros Hlen. unfold ParseList. now rewrite (Mid_chop J l r Hlen).
Qed.

(** A text without brackets loses its first and last character all the
    same. *)
Lemma ParseList_ignores_delimiters_witness :
  ParseList "a,b,c" = [""; "b"; ""].
Proof.
  apply (ParseList_ignores_delimiters "a" "c" ",b,"). reflexivity.
Defined.

(** X2.  A text of at most two characters (the empty text, a lone
    character, the bare brackets) decodes to the empty list. *)
Theorem ParseList_short (Str : string) :
  (String.length Str <= 2)%nat -> ParseList Str = [].
Proof.
  intros Hlen.
  destruct Str as [|a [|b [|c Str]]]; try reflexivity.
  simpl in Hlen. lia.
Qed.

Lemma ParseList_short_witness : ParseList "[" = [].
Proof. apply ParseList_short. simpl. lia. Defined.

(** X3.  No item [ParseList] returns holds a comma, whatever the text. *)
Theorem ParseList_no_comma_in_items (Str i : string) :
  In i (ParseList Str) -> HasChar "," i = false.
Proof.
  unfold ParseList, FStr.ParseIntoArray.
  destruct (FStr.IsEmpty _ || FStr.IsEmpty ","); [intros []|].
  apply ParseIntoArray_loop_comma_free.
Qed.

Lemma ParseList_no_comma_in_items_witness : HasChar "," "b]" = false.
Proof.
  apply (ParseList_no_comma_in_items "[[a,b]]" "b]"). right. now left.
Defined.

(** X4.  Decoding loses nothing: the items [ParseList] returns, joined
    again with commas, are exactly the text between the first and the last
    character, so no item, empty or not, is dropped or reordered. *)
Theorem ParseList_rejoin (l r : ascii) (J : string) :
  FStr.Len (String l (J ++ String r "")) < 2 ^ 31 ->
  JoinItems (ParseList (String l (J ++ String r ""))) = J.
Proof.
  intros Hlen. unfold ParseList. rewrite (Mid_chop J l r Hlen).
  apply ParseIntoArray_rejoin.
Qed.

Lemma ParseList_rejoin_witness : JoinItems (ParseList "[a,,b,]") = "a,,b,".
Proof. apply (ParseList_rejoin "[" "]" "a,,b,"). reflexivity. Defined.

(** ** Sanitization as one pass *)

Section SanitizeMoreFacts.

Lemma KeepIf_ext (f g : ascii -> bool) (s : string) :
  (forall c, f c = g c) -> KeepIf f s = KeepIf g s.
Proof.
  intros Hfg. induction s as [|c s IH]; simpl; auto.
  now rewrite Hfg, IH.
Qed.

Lemma KeepIf_KeepIf (f g : ascii -> bool) (s : string) :
  KeepIf f (KeepIf g s) = KeepIf (fun c => g c && f c) s.
Proof.
  induction s as [|c s IH]; simpl; auto.
  destruct (g c); simpl; [destruct (f c)|]; now rewrite IH.
Qed.

Lemma KeepIf_all (s : string) : KeepIf (fun _ => true) s = s.
Proof. induction s as [|c s IH]; simpl; congruence. Qed.

Lemma RemoveChar_KeepIf (b : ascii) (s : string) :
  FStr.RemoveChar b s
  = KeepIf (fun c => negb (Ascii.eqb (FStr.to_upper c) (FStr.to_upper b))) s.
Proof.
  induction s as [|c s IH]; simpl; auto.
  destruct (Ascii.eqb (FStr.to_upper c) (FStr.to_upper b)); simpl;
    now rewrite IH.
Qed.

(** The loop of removals is a single pass over the text. *)
Lemma StripInvalid_KeepIf (Bad : string) :
  forall s, StripInvalid Bad s
            = KeepIf (fun c => negb (MatchesTable Bad c)) s.
Proof.
  induction Bad as [|b Bad IH]; intros s; simpl.
  - now rewrite KeepIf_all.
  - rewrite IH, RemoveChar_KeepIf, KeepIf_KeepIf.
    apply KeepIf_ext. intros c. now rewrite negb_orb.
Qed.

End SanitizeMoreFacts.

(** X5.  Sanitization keeps exactly the characters of the candidate that
    match no entry of the forbidden table, in their order: the loop of
    per-entry removals amounts to one pass over the candidate. *)
Theorem GenerateName_one_pass {E : Editor} (Name_ : string) :
  GenerateName Name_
  = KeepIf (fun c => negb (MatchesTable INVALID_OBJECTNAME_CHARACTERS c))
           Name_.
Proof. apply StripInvalid_KeepIf. Qed.

(** X6.  Sanitization is idempotent: a sanitized name is left as it is by
    a second sanitization, so the name [RenameActor] or [GetFreeName]
    arrives at can be fed back to either. *)
Theorem GenerateName_idempotent {E : Editor} (Name_ : string) :
  GenerateName (GenerateName Name_) = GenerateName Name_.
Proof.
  unfold GenerateName. rewrite !StripInvalid_KeepIf, KeepIf_KeepIf.
  apply KeepIf_ext. intros c. now destruct (negb _).
Qed.

(** ** [RenameActor]: when it acts, and acting twice *)

Section RenameActorMoreFacts.

Context {E : Editor}.

Lemma RenameActor_outcome (a : AActor float) (Name_ : string) :
  DryRunKeepsActor ->
  RenameActor a Name_ = (GetFName a, a)
  \/ exists NewFName,
      RenameActor_NewFName Name_ = Some NewFName
      /\ NewFName <> GetFName a
      /\ fst (Rename a (ToString NewFName) DryRunFlags) = true
      /\ let a2 := snd (Rename a (ToString NewFName)
                               [REN_DontCreateRedirectors]) in
         RenameActor a Name_
         = (GetFName a2, SetActorLabel a2 (ToString (GetFName a2))).
Proof.
  intros Hdry. unfold RenameActor.
  destruct (RenameActor_NewFName Name_) as [NewFName|]; [|now left].
  destruct (RenameActor_Rename_cases a NewFName Hdry)
    as [Hkeep|(Hne & Hok & Hdone)]; [now left|].
  right. exists NewFName. auto.
Qed.

End RenameActorMoreFacts.

(** X7.  [RenameActor] touches the actor only after a successful dry run:
    if the actor is not exactly as before, then the candidate was not
    stripped to nothing, the name asked for differs from the actor's
    identifier, and the editor reported the rename feasible. *)
Theorem RenameActor_acts_only_when_feasible {E : Editor} (a : AActor float)
        (Name_ : string) :
  DryRunKeepsActor ->
  snd (RenameActor a Name_) <> a ->
  exists NewFName,
    RenameActor_NewFName Name_ = Some NewFName
    /\ GenerateName Name_ <> ""
    /\ NewFName <> GetFName a
    /\ fst (Rename a (ToString NewFName) DryRunFlags) = true.
Proof.
  intros Hdry Hchanged.
  destruct (RenameActor_outcome a Name_ Hdry)
    as [Hkeep|(NewFName & Hnew & Hne & Hok & _)].
  - rewrite Hkeep in Hchanged. now contradiction Hchanged.
  - exists NewFName. repeat split; auto.
    intros Hempty. unfold RenameActor_NewFName in Hnew.
    rewrite Hempty in Hnew. discriminate.
Qed.

Lemma RenameActor_acts_only_when_feasible_witness :
  exists NewFName,
    @RenameActor_NewFName TestEditor.plain "Stool" = Some NewFName
    /\ @GenerateName TestEditor.plain "Stool" <> ""
    /\ NewFName <> TestEditor.Chair_5
    /\ fst (@Rename TestEditor.plain
              (TestEditor.actor TestEditor.Chair_5 "Chair_5")
              (@ToString TestEditor.plain NewFName) DryRunFlags) = true.
Proof.
  apply (@RenameActor_acts_only_when_feasible TestEditor.plain
           (TestEditor.actor TestEditor.Chair_5 "Chair_5") "Stool").
  - apply TestEditor_DryRunKeepsActor.
  - vm_compute. discriminate.
Defined.

(** X8.  Renaming twice to the same candidate is renaming once: when a
    committed rename gives the actor the name asked for, a second
    [RenameActor] with the same candidate returns the same identifier and
    leaves the actor as the first call left it. *)
Theorem RenameActor_twice {E : Editor} (a : AActor float) (Name_ : string) :
  DryRunKeepsActor ->
  CommitAssigns a Name_ ->
  RenameActor (snd (RenameActor a Name_)) Name_ = RenameActor a Name_.
Proof.
  intros Hdry Hcommit.
  destruct (RenameActor_outcome a Name_ Hdry)
    as [Hkeep|(NewFName & Hnew & Hne & Hok & Hdone)].
  - rewrite Hkeep. simpl. exact Hkeep.
  - cbv zeta in Hdone. rewrite Hdone. cbn [snd].
    specialize (Hcommit NewFName Hnew Hok).
    unfold RenameActor at 1. rewrite Hnew. unfold RenameActor_Rename.
    change (GetFName (SetActorLabel ?x ?l)) with (GetFName x).
    rewrite Hcommit, FName_eqb_refl. reflexivity.
Qed.

Lemma RenameActor_twice_witness :
  @RenameActor TestEditor.plain
    (snd (@RenameActor TestEditor.plain
            (TestEditor.actor TestEditor.Chair_5 "Chair_5") "Sto ol"))
    "Sto ol"
  = (MkFName "Stool" 0,
     TestEditor.actor (MkFName "Stool" 0) "Stool").
Proof.
  rewrite (@RenameActor_twice TestEditor.plain
             (TestEditor.actor TestEditor.Chair_5 "Chair_5") "Sto ol").
  - reflexivity.
  - apply TestEditor_DryRunKeepsActor.
  - intros NewFName Hnew _. vm_compute in Hnew.
    injection Hnew as <-. reflexivity.
Defined.

(** ** [GetFreeName]: whatever the fuel and the order of the level *)

Section GetFreeNameMoreFacts.

Context {E : Editor}.

Lemma GetFreeName_loop_sound (Level : ULevel) :
  forall fuel T r,
    GetFreeName_loop fuel (InLevel Level) T = Some r ->
    ~ In r Level /\ ComparisonIndex r = ComparisonIndex T.
Proof.
  induction fuel as [|fuel IH]; intros T r; [discriminate|].
  cbn [GetFreeName_loop ExistingObject].
  destruct (StaticFindObjectFastInternal Level T) eqn:Hfound.
  - intros Hret. destruct (IH _ _ Hret) as [Hfree Hbase].
    split; [exact Hfree|]. rewrite Hbase. reflexivity.
  - intros [= <-]. split; [|reflexivity].
    intros Hin. apply StaticFindObjectFastInternal_In in Hin. congruence.
Qed.

Lemma GetFreeName_loop_more_fuel (Outer : OuterRef) :
  forall fuel fuel' T r,
    GetFreeName_loop fuel Outer T = Some r ->
    (fuel <= fuel')%nat ->
    GetFreeName_loop fuel' Outer T = Some r.
Proof.
  induction fuel as [|fuel IH]; intros fuel' T r; [discriminate|].
  intros Hret Hle. destruct fuel' as [|fuel']; [lia|].
  cbn [GetFreeName_loop] in *.
  destruct (ExistingObject Outer T); [|exact Hret].
  apply (IH fuel' _ _ Hret). lia.
Qed.

Lemma GetFreeName_loop_same_members (Level Level' : ULevel) :
  (forall n, In n Level <-> In n Level') ->
  forall fuel T,
    GetFreeName_loop fuel (InLevel Level) T
    = GetFreeName_loop fuel (InLevel Level') T.
Proof.
  intros Hsame. induction fuel as [|fuel IH]; intros T; [reflexivity|].
  cbn [GetFreeName_loop ExistingObject].
  assert (Hfind : StaticFindObjectFastInternal Level T
                  = StaticFindObjectFastInternal Level' T).
  { destruct (StaticFindObjectFastInternal Level T) eqn:H1,
             (StaticFindObjectFastInternal Level' T) eqn:H2; auto.
    - apply StaticFindObjectFastInternal_In, Hsame in H1.
      apply StaticFindObjectFastInternal_In in H1. congruence.
    - apply StaticFindObjectFastInternal_In, Hsame in H2.
      apply StaticFindObjectFastInternal_In in H2. congruence. }
  rewrite Hfind. now rewrite IH.
Qed.

End GetFreeNameMoreFacts.

(** X9.  A candidate that is free is returned as it is, and only then:
    with at least one turn of fuel, [GetFreeName] answers the sanitized
    candidate's own identifier exactly when no object of the level has
    it. *)
Theorem GetFreeName_candidate_iff_free {E : Editor} (fuel : nat)
        (GEditor : UEditorEngine) (Name_ : string) :
  (0 < fuel)%nat ->
  (GetFreeName fuel GEditor Name_ = Some (GetFreeName_TestName Name_)
   <-> ~ In (GetFreeName_TestName Name_) (GetCurrentLevel GEditor)).
Proof.
  intros Hfuel. unfold GetFreeName. split.
  - intros Hret. now apply GetFreeName_loop_sound in Hret.
  - intros Hfree. destruct fuel as [|fuel]; [lia|].
    cbn [GetFreeName_loop ExistingObject].
    destruct (StaticFindObjectFastInternal _ _) eqn:Hfound; [|reflexivity].
    apply StaticFindObjectFastInternal_In in Hfound. contradiction.
Qed.

Lemma GetFreeName_candidate_iff_free_witness :
  @GetFreeName TestEditor.plain 1 (MkGEditor [TestEditor.Chair_6]) "Chair_5"
  = Some TestEditor.Chair_5.
Proof.
  apply (@GetFreeName_candidate_iff_free TestEditor.plain 1
           (MkGEditor [TestEditor.Chair_6]) "Chair_5").
  - lia.
  - intros [H|[]]. discriminate H.
Defined.

(** X10.  Whatever the fuel, a name [GetFreeName] returns is not in use in
    the level and has the base name of the sanitized candidate, and the
    same name is returned with any larger fuel: the fuel only bounds the
    search, it never changes the answer. *)
Theorem GetFreeName_answer_stable {E : Editor} (fuel : nat)
        (GEditor : UEditorEngine) (Name_ : string) (r : FName) :
  GetFreeName fuel GEditor Name_ = Some r ->
  ~ In r (GetCurrentLevel GEditor)
  /\ ComparisonIndex r = ComparisonIndex (GetFreeName_TestName Name_)
  /\ forall fuel', (fuel <= fuel')%nat ->
                   GetFreeName fuel' GEditor Name_ = Some r.
Proof.
  unfold GetFreeName. intros Hret.
  destruct (GetFreeName_loop_sound _ _ _ _ Hret) as [Hfree Hbase].
  split; [exact Hfree|]. split; [exact Hbase|].
  intros fuel' Hle. exact (GetFreeName_loop_more_fuel _ _ _ _ _ Hret Hle).
Qed.

Lemma GetFreeName_answer_stable_witness :
  @GetFreeName TestEditor.plain 7
    (MkGEditor [TestEditor.Chair_5; TestEditor.Chair_6]) "Chair_5"
  = Some (MkFName "Chair" 8).
Proof.
  destruct (@GetFreeName_answer_stable TestEditor.plain 3
              (MkGEditor [TestEditor.Chair_5; TestEditor.Chair_6])
              "Chair_5" (MkFName "Chair" 8) eq_refl) as (_ & _ & Hmore).
  apply Hmore. lia.
Defined.

(** X11.  [GetFreeName] reads the level as a set: two levels with the same
    names in use, in whatever order and multiplicity, give the same
    answer. *)
Theorem GetFreeName_level_as_set {E : Editor} (fuel : nat)
        (Level Level' : ULevel) (Name_ : string) :
  (forall n, In n Level <-> In n Level') ->
  GetFreeName fuel (MkGEditor Level) Name_
  = GetFreeName fuel (MkGEditor Level') Name_.
Proof.
  intros Hsame. unfold GetFreeName. cbn [GetCurrentLevel].
  now apply GetFreeName_loop_same_members.
Qed.

Lemma GetFreeName_level_as_set_witness :
  @GetFreeName TestEditor.plain 3
    (MkGEditor [TestEditor.Chair_5; TestEditor.Chair_6]) "Chair_5"
  = @GetFreeName TestEditor.plain 3
      (MkGEditor [TestEditor.Chair_6; TestEditor.Chair_5;
                  TestEditor.Chair_6]) "Chair_5".
Proof.
  apply (@GetFreeName_level_as_set TestEditor.plain 3).
  intros n. simpl. tauto.
Defined.

(** ** [SetActorTransformRelativeFromText]: frame, result, repetition *)

Section DecoderMoreFacts.
Import FStr FStrFacts.

Context {E : Editor}.

(** A marker's payload is out of reach exactly when the marker is the
    end of the text. *)
Lemma PayloadOf_None (Str Marker : string) :
  String.length Marker = 2%nat ->
  (PayloadOf Str Marker = None
   <-> exists At, Strfind Str Marker = Some At
                  /\ (At + 2 = String.length Str)%nat).
Proof.
  intros Hlen. unfold PayloadOf. split.
  - destruct (Strfind Str Marker) as [At|] eqn:Hfind; [|discriminate].
    destruct (At + 3 <=? String.length Str)%nat eqn:Hle; [discriminate|].
    intros _. exists At. split; [reflexivity|].
    apply Nat.leb_gt in Hle.
    destruct Marker as [|m Marker]; [discriminate|].
    apply Strfind_from_bound in Hfind. rewrite Hlen in Hfind. lia.
  - intros (At & -> & Hend).
    destruct (At + 3 <=? String.length Str)%nat eqn:Hle; [|reflexivity].
    apply Nat.leb_le in Hle. lia.
Qed.

Lemma SetActorTransformRelativeFromText_None (a : AActor float)
      (Str : string) :
  SetActorTransformRelativeFromText a Str = None
  <-> (PayloadOf Str "T=" = None \/ PayloadOf Str "R=" = None
       \/ PayloadOf Str "S=" = None).
Proof.
  unfold SetActorTransformRelativeFromText.
  destruct (PayloadOf Str "T=") as [T|];
    destruct (PayloadOf Str "R=") as [R|];
    destruct (PayloadOf Str "S=") as [S_|];
    split; intros H; auto; try discriminate;
    destruct H as [H|[H|H]]; discriminate.
Qed.

End DecoderMoreFacts.

(** X12.  The decoder changes nothing of an actor but its relative
    transform and its received notifications: on every text it returns on,
    the identifier and the label are as before, and exactly the four
    notifications (lighting cache, post-edit-move, default-subobject check,
    package dirty) are added behind those already received. *)
Theorem transform_keeps_identity {E : Editor} (a a' : AActor float)
        (Str : string) :
  SetActorTransformRelativeFromText a Str = Some a' ->
  GetFName a' = GetFName a
  /\ ActorLabel a' = ActorLabel a
  /\ Received a' = (Received a ++ TransformNotifications)%list.
Proof.
  intros Hret.
  destruct (SetActorTransformRelativeFromText_fields a a' Str Hret)
    as (T & R & S_ & _ & _ & _ & _ & _ & _ & Hname & Hlabel & Hrecv).
  auto.
Qed.

Lemma transform_keeps_identity_witness :
  GetFName (MkAActor TestEditor.Chair_5 "My Chair" (MkFVector 1 2 3)
                     (MkFRotator 0 90 0) (MkFVector 2 2 2)
                     TransformNotifications)
  = TestEditor.Chair_5
  /\ ActorLabel (MkAActor TestEditor.Chair_5 "My Chair" (MkFVector 1 2 3)
                          (MkFRotator 0 90 0) (MkFVector 2 2 2)
                          TransformNotifications)
     = "My Chair"
  /\ Received (MkAActor TestEditor.Chair_5 "My Chair" (MkFVector 1 2 3)
                        (MkFRotator 0 90 0) (MkFVector 2 2 2)
                        TransformNotifications)
     = TransformNotifications.
Proof.
  apply (@transform_keeps_identity TestEditor.plain
           (TestEditor.actor TestEditor.Chair_5 "My Chair")
           (MkAActor TestEditor.Chair_5 "My Chair" (MkFVector 1 2 3)
                     (MkFRotator 0 90 0) (MkFVector 2 2 2)
                     TransformNotifications)
           "T=(1 2 3) R=(0 90 0) S=(2 2 2)").
  reflexivity.
Defined.

(** X13.  The decoder fails to return exactly when one of the markers
    [T=], [R=], [S=] it finds is the very end of the text: the three
    characters it skips from the marker on then reach past the
    terminator. *)
Theorem transform_no_result_iff {E : Editor} (a : AActor float)
        (Str : string) :
  SetActorTransformRelativeFromText a Str = None
  <-> exists Marker At,
      In Marker TransformMarkers
      /\ FStr.Strfind Str Marker = Some At
      /\ (At + 2 = String.length Str)%nat.
Proof.
  rewrite SetActorTransformRelativeFromText_None.
  rewrite !PayloadOf_None by reflexivity.
  unfold TransformMarkers. split.
  - intros [(At & H)|[(At & H)|(At & H)]].
    + exists "T=", At. simpl. tauto.
    + exists "R=", At. simpl. tauto.
    + exists "S=", At. simpl. tauto.
  - intros (Marker & At & [<-|[<-|[<-|[]]]] & H).
    + left. now exists At.
    + right; left. now exists At.
    + right; right. now exists At.
Qed.

(** A scale followed by a bare [T=] at the end of the text. *)
Lemma transform_no_result_iff_witness :
  @SetActorTransformRelativeFromText TestEditor.plain
    (TestEditor.actor TestEditor.Chair_5 "Chair_5") "S=(1 1 1) T=" = None.
Proof.
  apply (@transform_no_result_iff TestEditor.plain
           (TestEditor.actor TestEditor.Chair_5 "Chair_5") "S=(1 1 1) T=").
  exists "T=", 10%nat. split; [now left|].
  split; reflexivity.
Defined.

(** X14.  Decoding the same text twice gives the transform of decoding it
    once: the second run returns, leaves location, rotation and scale as
    the first run set them, and only adds its four notifications. *)
Theorem transform_twice {E : Editor} (a a1 : AActor float) (Str : string) :
  SetActorTransformRelativeFromText a Str = Some a1 ->
  exists a2,
    SetActorTransformRelativeFromText a1 Str = Some a2
    /\ RelativeLocation a2 = RelativeLocation a1
    /\ RelativeRotation a2 = RelativeRotation a1
    /\ RelativeScale3D a2 = RelativeScale3D a1
    /\ Received a2 = (Received a1 ++ TransformNotifications)%list.
Proof.
  intros Hret.
  destruct (SetActorTransformRelativeFromText a1 Str) as [a2|] eqn:Hret2.
  - exists a2. split; [reflexivity|].
    destruct (SetActorTransformRelativeFromText_fields a a1 Str Hret)
      as (T & R & S_ & HT & HR & HS & Hloc & Hrot & Hscale & _).
    destruct (SetActorTransformRelativeFromText_fields a1 a2 Str Hret2)
      as (T' & R' & S' & HT' & HR' & HS' & Hloc' & Hrot' & Hscale'
          & _ & _ & Hrecv).
    rewrite HT in HT'. rewrite HR in HR'. rewrite HS in HS'.
    injection HT' as <-. injection HR' as <-. injection HS' as <-.
    repeat split; auto.
    + rewrite Hloc', Hloc. now destruct T.
    + rewrite Hrot', Hrot. now destruct R.
    + rewrite Hscale', Hscale. now destruct S_.
  - exfalso.
    apply SetActorTransformRelativeFromText_None in Hret2.
    apply (SetActorTransformRelativeFromText_None a) in Hret2.
    congruence.
Qed.

Lemma transform_twice_witness :
  exists a2,
    @SetActorTransformRelativeFromText TestEditor.plain
      (MkAActor TestEditor.Chair_5 "Chair_5" (MkFVector 1 2 3)
                (MkFRotator 10 20 30) (MkFVector 1 1 1)
                TransformNotifications)
      "T=(1 2 3)" = Some a2
    /\ RelativeLocation a2 = MkFVector 1 2 3
    /\ RelativeRotation a2 = MkFRotator 10 20 30
    /\ RelativeScale3D a2 = MkFVector 1 1 1
    /\ Received a2 = (TransformNotifications ++ TransformNotifications)%list.
Proof.
  apply (@transform_twice TestEditor.plain
           (TestEditor.actor TestEditor.Chair_5 "Chair_5")
           (MkAActor TestEditor.Chair_5 "Chair_5" (MkFVector 1 2 3)
                     (MkFRotator 10 20 30) (MkFVector 1 1 1)
                     TransformNotifications)
           "T=(1 2 3)").
  reflexivity.
Defined.

(** ** [GetActorByName] *)

Section GetActorByNameFacts.

Context {E : Editor}.

Lemma FindObject_Some (World : UWorld float) (Name_ : string)
      (o : LevelObject float) :
  FindObject World Name_ = Some o ->
  In o World /\ GetFName (Object o) = FName_of Name_.
Proof.
  unfold FindObject. intros H. apply find_some in H as [Hin Heq].
  split; [exact Hin|]. now apply FName_eqb_eq.
Qed.

Lemma FindObject_None (World : UWorld float) (Name_ : string) :
  FindObject World Name_ = None <-> ~ In (FName_of Name_) (LevelNames World).
Proof.
  unfold FindObject, LevelNames. split.
  - intros Hnone Hin. apply in_map_iff in Hin as (o & Heq & Hin).
    pose proof (find_none _ _ Hnone o Hin) as Hno. cbv beta in Hno.
    rewrite Heq, FName_eqb_refl in Hno. discriminate.
  - intros Hfree.
    destruct (find _ World) as [o|] eqn:Hfind; [|reflexivity].
    exfalso. apply find_some in Hfind as [Hin Heq].
    apply FName_eqb_eq in Heq. apply Hfree, in_map_iff. now exists o.
Qed.

End GetActorByNameFacts.

(** X15.  [GetActorByName] answers true only for an actor that is in the
    searched level, passes the validity test and bears the name asked for,
    and then hands that actor out; when it answers false (no such actor,
    or the actor found is not valid) the caller's variable is left as it
    was.  It answers false in particular whenever no actor of the level
    has the name. *)
Theorem GetActorByName_sound {E : Editor} (Name_ : string)
        (OutActor : option (AActor float)) (World EditorWorld : UWorld float) :
  (fst (GetActorByName Name_ OutActor (Some World) EditorWorld) = true ->
   exists o, In o World /\ IsValidLowLevel o = true
             /\ GetFName (Object o) = FName_of Name_
             /\ snd (GetActorByName Name_ OutActor (Some World) EditorWorld)
                = Some (Object o))
  /\ (fst (GetActorByName Name_ OutActor (Some World) EditorWorld) = false ->
      snd (GetActorByName Name_ OutActor (Some World) EditorWorld)
      = OutActor)
  /\ (~ In (FName_of Name_) (LevelNames World) ->
      GetActorByName Name_ OutActor (Some World) EditorWorld
      = (false, OutActor))
  /\ GetActorByName Name_ OutActor None EditorWorld
     = GetActorByName Name_ OutActor (Some EditorWorld) EditorWorld.
Proof.
  unfold GetActorByName.
  split; [|split; [|split; [|reflexivity]]].
  - destruct (FindObject World Name_) as [o|] eqn:Hfind; [|discriminate].
    destruct (IsValidLowLevel o) eqn:Hvalid; [|discriminate].
    intros _. exists o. destruct (FindObject_Some _ _ _ Hfind). auto.
  - destruct (FindObject World Name_) as [o|]; [|reflexivity].
    destruct (IsValidLowLevel o); [discriminate|reflexivity].
  - intros Hfree. apply FindObject_None in Hfree. now rewrite Hfree.
Qed.

(** The valid [Chair_5] is handed out; the destroyed [Chair_6] and the
    absent [Stool] leave the variable alone. *)
Lemma GetActorByName_sound_witness :
  @GetActorByName TestEditor.plain "Chair_5" None (Some TestWorld.world) []
  = (true, Some (TestEditor.actor TestEditor.Chair_5 "Chair_5"))
  /\ snd (@GetActorByName TestEditor.plain "Chair_6" None
            (Some TestWorld.world) []) = None
  /\ @GetActorByName TestEditor.plain "Stool" None (Some TestWorld.world) []
     = (false, None).
Proof.
  destruct (@GetActorByName_sound TestEditor.plain "Chair_6" None
              TestWorld.world []) as (_ & Hkept & _).
  destruct (@GetActorByName_sound TestEditor.plain "Stool" None
              TestWorld.world []) as (_ & _ & Habsent & _).
  split; [reflexivity|]. split.
  - apply Hkept. reflexivity.
  - apply Habsent. intros [H|[H|[]]]; discriminate H.
Defined.

(** X16.  The name [GetFreeName] returns is not found by [GetActorByName]:
    when the level probed by [GetFreeName] holds at least the names of the
    world's actors and the engine reads the returned name back from its
    string form, looking that string up answers false and leaves the
    caller's variable alone. *)
Theorem GetFreeName_then_GetActorByName {E : Editor} (fuel : nat)
        (GEditor : UEditorEngine) (Name_ : string) (r : FName)
        (OutActor : option (AActor float)) (World EditorWorld : UWorld float) :
  GetFreeName fuel GEditor Name_ = Some r ->
  incl (LevelNames World) (GetCurrentLevel GEditor) ->
  FName_of (ToString r) = r ->
  GetActorByName (ToString r) OutActor (Some World) EditorWorld
  = (false, OutActor).
Proof.
  intros Hret Hincl Hback. unfold GetFreeName in Hret.
  apply GetFreeName_loop_sound in Hret as [Hfree _].
  unfold GetActorByName.
  assert (Hnone : FindObject World (ToString r) = None).
  { apply FindObject_None. rewrite Hback. intros Hin. apply Hfree.
    now apply Hincl. }
  now rewrite Hnone.
Qed.

Lemma GetFreeName_then_GetActorByName_witness :
  @GetActorByName TestEditor.plain "Chair_7" None (Some TestWorld.world) []
  = (false, None).
Proof.
  apply (@GetFreeName_then_GetActorByName TestEditor.plain 3
           (MkGEditor (@LevelNames TestEditor.plain TestWorld.world))
           "Chair_5" (MkFName "Chair" 8) None TestWorld.world []).
  - reflexivity.
  - intros n Hn. exact Hn.
  - reflexivity.
Defined.

(** ** Create, rename, place *)

(** X17.  An actor made by [AddNewActorFromAsset], then renamed by
    [RenameActor] with any candidate and placed by
    [SetActorTransformRelativeFromText] with any text it returns on, has a
    label equal to the string form of its identifier, and that identifier
    is the one [RenameActor] returned. *)
Theorem create_rename_place_synced {E : Editor} (AssetPath : string)
        (InLevel_ : ULevel) (Name0 : FName) (bSelectActor : bool)
        (Location : FVector float) (ObjectFlags : EObjectFlags)
        (a a' : AActor float) (Name_ Str : string) :
  DryRunKeepsActor ->
  AddNewActorFromAsset AssetPath InLevel_ Name0 bSelectActor Location
                       ObjectFlags = Returned (Some a) ->
  SetActorTransformRelativeFromText (snd (RenameActor a Name_)) Str
  = Some a' ->
  ActorLabel a' = ToString (GetFName a')
  /\ GetFName a' = fst (RenameActor a Name_).
Proof.
  intros Hdry Hnew Hplace.
  assert (Hsync : ActorLabel a = ToString (GetFName a)).
  { unfold AddNewActorFromAsset in Hnew.
    destruct (GetAssetFromPath AssetPath); [|discriminate].
    destruct (AddActorForAsset _ _ _ _ _ _); [|discriminate].
    injection Hnew as <-. reflexivity. }
  destruct (SetActorTransformRelativeFromText_fields _ _ _ Hplace)
    as (_ & _ & _ & _ & _ & _ & _ & _ & _ & Hname & Hlabel & _).
  change (Name a') with (GetFName a') in Hname.
  change (Name (snd (RenameActor a Name_)))
    with (GetFName (snd (RenameActor a Name_))) in Hname.
  rewrite Hlabel, Hname.
  destruct (RenameActor_outcome a Name_ Hdry)
    as [Hkeep|(NewFName & _ & _ & _ & Hdone)].
  - rewrite Hkeep. simpl. split; [exact Hsync|reflexivity].
  - cbv zeta in Hdone. rewrite Hdone. simpl. split; reflexivity.
Qed.

Lemma create_rename_place_synced_witness :
  ActorLabel (MkAActor (MkFName "Stool" 0) "Stool" (MkFVector 1 2 3)
                       (MkFRotator 0 0 0) (MkFVector 1 1 1)
                       TransformNotifications)
  = @ToString TestEditor.plain
      (GetFName (MkAActor (MkFName "Stool" 0) "Stool" (MkFVector 1 2 3)
                          (MkFRotator 0 0 0) (MkFVector 1 1 1)
                          TransformNotifications))
  /\ GetFName (MkAActor (MkFName "Stool" 0) "Stool" (MkFVector 1 2 3)
                        (MkFRotator 0 0 0) (MkFVector 1 1 1)
                        TransformNotifications)
     = fst (@RenameActor TestEditor.plain
              (MkAActor (MkFName "GeneratedName" 0) "GeneratedName"
                        (MkFVector 0 0 0) (MkFRotator 0 0 0)
                        (MkFVector 1 1 1) [])
              "Stool").
Proof.
  apply (@create_rename_place_synced TestEditor.plain "/Game/Meshes/Chair" []
           NAME_None true (MkFVector 0 0 0) tt
           (MkAActor (MkFName "GeneratedName" 0) "GeneratedName"
                     (MkFVector 0 0 0) (MkFRotator 0 0 0)
                     (MkFVector 1 1 1) [])
           (MkAActor (MkFName "Stool" 0) "Stool" (MkFVector 1 2 3)
                     (MkFRotator 0 0 0) (MkFVector 1 1 1)
                     TransformNotifications)
           "Stool" "T=(1 2 3)").
  - apply TestEditor_DryRunKeepsActor.
  - reflexivity.
  - reflexivity.
Defined.
